(** * ReadNote Plus persistence backend (server.js): a shallow embedding

    The server is a single request handler: requests whose URL starts with
    [/api/] go to [handleApi], which reads and writes a Redis key-value
    store; every other request is served from the file system with a
    single-page-application fallback.

    The embedding follows the source function by function.  The JavaScript
    and Node library functions the source calls (JSON.parse, JSON.stringify,
    the URL parser, decodeURIComponent, path.join, path.extname,
    Date.prototype.toISOString, the Redis commands, fs.readFile) are
    modelled by executable definitions of their documented behaviour. *)

From Stdlib Require Import ZArith String Ascii List Bool Lia.
From Stdlib Require Import DecimalString DecimalZ DecimalPos DecimalFacts.
From stdpp Require Import gmap strings.

Local Open Scope string_scope.
Local Open Scope Z_scope.

(** ** Characters and strings

    A JavaScript string is modelled by a Rocq [string]: the sequence of
    bytes of its UTF-8 encoding. *)

Module Chars.

Definition dquote : ascii := "034"%char.
Definition backslash : ascii := "092"%char.
Definition tab : ascii := "009"%char.
Definition lf : ascii := "010"%char.
Definition cr : ascii := "013"%char.
Definition nul : ascii := "000"%char.

Definition code (c : ascii) : Z := Z.of_N (N_of_ascii c).
Definition of_code (z : Z) : ascii := ascii_of_N (Z.to_N z).

Definition is_digit (c : ascii) : bool := (48 <=? code c) && (code c <=? 57).

Definition hex_digit (d : Z) : ascii :=
  if d <? 10 then of_code (48 + d) else of_code (87 + d).

Definition upper_hex_digit (d : Z) : ascii :=
  if d <? 10 then of_code (48 + d) else of_code (55 + d).

Definition hex_value (c : ascii) : option Z :=
  let n := code c in
  if (48 <=? n) && (n <=? 57) then Some (n - 48)
  else if (97 <=? n) && (n <=? 102) then Some (n - 87)
  else if (65 <=? n) && (n <=? 70) then Some (n - 55)
  else None.

Definition to_lower (c : ascii) : ascii :=
  let n := code c in
  if (65 <=? n) && (n <=? 90) then of_code (n + 32) else c.

End Chars.

Module Str.

Fixpoint contains_char (c : ascii) (s : string) : bool :=
  match s with
  | EmptyString => false
  | String a s' => Ascii.eqb a c || contains_char c s'
  end.

Fixpoint forall_chars (p : ascii -> bool) (s : string) : bool :=
  match s with
  | EmptyString => true
  | String a s' => p a && forall_chars p s'
  end.

Fixpoint map_chars (f : ascii -> ascii) (s : string) : string :=
  match s with
  | EmptyString => EmptyString
  | String a s' => String (f a) (map_chars f s')
  end.

(** [s.startsWith(p)] *)
Fixpoint startsWith (p s : string) : bool :=
  match p, s with
  | EmptyString, _ => true
  | String a p', String b s' => Ascii.eqb a b && startsWith p' s'
  | String _ _, EmptyString => false
  end.

(** When [s] starts with [p], the rest of [s] after [p]. *)
Fixpoint strip_prefix (p s : string) : option string :=
  match p, s with
  | EmptyString, _ => Some s
  | String a p', String b s' =>
      if Ascii.eqb a b then strip_prefix p' s' else None
  | String _ _, EmptyString => None
  end.

(** [s.split(sep)] for a one-character separator: never empty. *)
Fixpoint split (sep : ascii) (s : string) : list string :=
  match s with
  | EmptyString => [EmptyString]
  | String a s' =>
      if Ascii.eqb a sep then EmptyString :: split sep s'
      else match split sep s' with
           | [] => [String a EmptyString]
           | x :: xs => String a x :: xs
           end
  end.

(** [parts.join(sep)] *)
Fixpoint join (sep : string) (parts : list string) : string :=
  match parts with
  | [] => EmptyString
  | [x] => x
  | x :: xs => x +:+ sep +:+ join sep xs
  end.

(** [arr.pop()] on a non-empty array, [dflt] otherwise. *)
Definition last_or (dflt : string) (parts : list string) : string :=
  List.last parts dflt.

Definition of_char (c : ascii) : string := String c EmptyString.

End Str.

(** ** JSON values, JSON.stringify and JSON.parse

    Values are the JSON values; an object is the list of its own
    properties, with distinct names when it comes out of [JSON_parse]
    (of two members with one name the later gives the value).  The list
    is in the order of the text; JavaScript enumerates integer-like
    names first, a difference in order only, on which nothing below
    depends.
    Numbers are the integers: a literal with a fraction or an exponent is
    outside the model and [JSON_parse] has no result on it.  The value
    [undefined] is not a JSON value; where the source can meet it (a
    property that is absent) the embedding uses [option json]. *)

Module JSON.
Import Chars.

Unset Elimination Schemes.
Inductive json : Type :=
  | JNull
  | JBool (b : bool)
  | JNum (n : Z)
  | JStr (s : string)
  | JArr (l : list json)
  | JObj (o : list (string * json)).
Set Elimination Schemes.

Section json_induction.
Variable P : json -> Prop.
Hypothesis HNull : P JNull.
Hypothesis HBool : forall b, P (JBool b).
Hypothesis HNum : forall n, P (JNum n).
Hypothesis HStr : forall s, P (JStr s).
Hypothesis HArr : forall l, Forall P l -> P (JArr l).
Hypothesis HObj : forall o, Forall (fun kv => P (snd kv)) o -> P (JObj o).

Fixpoint json_ind (v : json) : P v :=
  match v with
  | JNull => HNull
  | JBool b => HBool b
  | JNum n => HNum n
  | JStr s => HStr s
  | JArr l =>
      HArr l ((fix elems (l : list json) : Forall P l :=
                 match l with
                 | [] => List.Forall_nil P
                 | x :: l' => List.Forall_cons P x l' (json_ind x) (elems l')
                 end) l)
  | JObj o =>
      HObj o ((fix members (o : list (string * json))
                 : Forall (fun kv => P (snd kv)) o :=
                 match o with
                 | [] => List.Forall_nil _
                 | kv :: o' =>
                     List.Forall_cons _ kv o' (json_ind (snd kv)) (members o')
                 end) o)
  end.
End json_induction.

(** *** Objects as property lists *)

(** [o[k]] for an own property. *)
Fixpoint obj_get (k : string) (o : list (string * json)) : option json :=
  match o with
  | [] => None
  | (k', v) :: o' => if String.eqb k' k then Some v else obj_get k o'
  end.

(** [o[k] = v]: an existing property keeps its place. *)
Fixpoint obj_set (k : string) (v : json) (o : list (string * json))
  : list (string * json) :=
  match o with
  | [] => [(k, v)]
  | (k', v') :: o' =>
      if String.eqb k' k then (k, v) :: o' else (k', v') :: obj_set k v o'
  end.

Definition obj_of_members (ms : list (string * json)) : list (string * json) :=
  fold_left (fun acc kv => obj_set (fst kv) (snd kv) acc) ms [].

Fixpoint nodup_keys (ks : list string) : bool :=
  match ks with
  | [] => true
  | k :: ks' => negb (existsb (String.eqb k) ks') && nodup_keys ks'
  end.

(** Property names are distinct in every object of the value. *)
Fixpoint wf_json (v : json) : bool :=
  match v with
  | JArr l => forallb wf_json l
  | JObj o => nodup_keys (map fst o) && forallb (fun kv => wf_json (snd kv)) o
  | _ => true
  end.

(** The number of calls [parse_value] needs to read the value back. *)
Fixpoint cost (v : json) : nat :=
  match v with
  | JArr l => S (fold_right (fun x acc => S (cost x + acc))%nat O l)
  | JObj o => S (fold_right (fun kv acc => S (cost (snd kv) + acc))%nat O o)
  | _ => 1%nat
  end.

(** *** JSON.stringify *)

Definition pr_int (n : Z) : string := NilZero.string_of_int (Z.to_int n).

Definition escape_char (c : ascii) : string :=
  let n := code c in
  if Ascii.eqb c dquote then String backslash (String dquote EmptyString)
  else if Ascii.eqb c backslash then String backslash (String backslash EmptyString)
  else if n =? 8 then String backslash "b"
  else if n =? 9 then String backslash "t"
  else if n =? 10 then String backslash "n"
  else if n =? 12 then String backslash "f"
  else if n =? 13 then String backslash "r"
  else if n <? 32 then
    String backslash
      (String "u" (String "0" (String "0"
         (String (hex_digit (n / 16)) (String (hex_digit (n mod 16)) EmptyString)))))
  else String c EmptyString.

Fixpoint escape (s k : string) : string :=
  match s with
  | EmptyString => k
  | String c s' => escape_char c +:+ escape s' k
  end.

(** The quoted form of [s], followed by [k]. *)
Definition quote (s k : string) : string :=
  String dquote (escape s (String dquote k)).

(** The items of [l], each after a comma, then [close], then [k]. *)
Definition pr_tail {A} (f : A -> string -> string) (close : ascii)
  : list A -> string -> string :=
  fix go (l : list A) (k : string) : string :=
    match l with
    | [] => String close k
    | x :: l' => String "," (f x (go l' k))
    end.

Definition pr_seq {A} (f : A -> string -> string) (open close : ascii)
    (l : list A) (k : string) : string :=
  String open
    match l with
    | [] => String close k
    | x :: l' => f x (pr_tail f close l' k)
    end.

(** The text of [v], followed by [k]. *)
Fixpoint pr (v : json) (k : string) : string :=
  match v with
  | JNull => "null" +:+ k
  | JBool true => "true" +:+ k
  | JBool false => "false" +:+ k
  | JNum n => pr_int n +:+ k
  | JStr s => quote s k
  | JArr l => pr_seq pr "[" "]" l k
  | JObj o =>
      pr_seq (fun kv k' => quote (fst kv) (String ":" (pr (snd kv) k')))
             "{" "}" o k
  end.

Definition JSON_stringify (v : json) : string := pr v EmptyString.

(** *** JSON.parse *)

Definition is_ws (c : ascii) : bool :=
  let n := code c in (n =? 32) || (n =? 9) || (n =? 10) || (n =? 13).

Fixpoint skip_ws (s : string) : string :=
  match s with
  | EmptyString => EmptyString
  | String c s' => if is_ws c then skip_ws s' else s
  end.

(** UTF-8 bytes of the code unit of a [\uXXXX] escape; the surrogate code
    units, which have no UTF-8 form of their own, are outside the model. *)
Definition utf8_of_unit (u : Z) : option string :=
  if u <? 128 then Some (Str.of_char (of_code u))
  else if u <? 2048 then
    Some (String (of_code (192 + u / 64))
            (String (of_code (128 + u mod 64)) EmptyString))
  else if (55296 <=? u) && (u <=? 57343) then None
  else
    Some (String (of_code (224 + u / 4096))
            (String (of_code (128 + (u / 64) mod 64))
               (String (of_code (128 + u mod 64)) EmptyString))).

Definition hex4 (a b c d : ascii) : option Z :=
  match hex_value a, hex_value b, hex_value c, hex_value d with
  | Some x, Some y, Some z, Some w => Some (((x * 16 + y) * 16 + z) * 16 + w)
  | _, _, _, _ => None
  end.

Definition simple_escape (e : ascii) : option ascii :=
  if Ascii.eqb e dquote then Some dquote
  else if Ascii.eqb e backslash then Some backslash
  else if Ascii.eqb e "/" then Some "/"%char
  else if Ascii.eqb e "b" then Some (of_code 8)
  else if Ascii.eqb e "f" then Some (of_code 12)
  else if Ascii.eqb e "n" then Some (of_code 10)
  else if Ascii.eqb e "r" then Some (of_code 13)
  else if Ascii.eqb e "t" then Some (of_code 9)
  else None.

Definition prepend (p : string) (r : option (string * string))
  : option (string * string) :=
  match r with
  | Some (s, rest) => Some (p +:+ s, rest)
  | None => None
  end.

(** After the opening quote: the characters up to the closing quote, and
    what follows it. *)
Fixpoint parse_chars (s : string) : option (string * string) :=
  match s with
  | EmptyString => None
  | String c rest =>
      if Ascii.eqb c dquote then Some (EmptyString, rest)
      else if Ascii.eqb c backslash then
        match rest with
        | EmptyString => None
        | String e rest1 =>
            match simple_escape e with
            | Some c' => prepend (Str.of_char c') (parse_chars rest1)
            | None =>
                if Ascii.eqb e "u" then
                  match rest1 with
                  | String h1 (String h2 (String h3 (String h4 rest2))) =>
                      match hex4 h1 h2 h3 h4 with
                      | Some u =>
                          match utf8_of_unit u with
                          | Some bytes => prepend bytes (parse_chars rest2)
                          | None => None
                          end
                      | None => None
                      end
                  | _ => None
                  end
                else None
            end
        end
      else if code c <? 32 then None
      else prepend (Str.of_char c) (parse_chars rest)
  end.

Definition is_num_char (c : ascii) : bool := Ascii.eqb c "-" || is_digit c.

Fixpoint span_num (s : string) : string * string :=
  match s with
  | EmptyString => (EmptyString, EmptyString)
  | String c s' =>
      if is_num_char c then
        let (tok, rest) := span_num s' in (String c tok, rest)
      else (EmptyString, s)
  end.

Definition starts_fraction (s : string) : bool :=
  match s with
  | String c _ => Ascii.eqb c "." || Ascii.eqb c "e" || Ascii.eqb c "E"
  | EmptyString => false
  end.

(** An integer literal: an optional minus sign, then [0] or a digit
    sequence without a leading zero. *)
Definition parse_number (s : string) : option (json * string) :=
  let (tok, rest) := span_num s in
  if starts_fraction rest then None
  else
    match NilZero.int_of_string tok with
    | Some i =>
        let z := Z.of_int i in
        if String.eqb (pr_int z) tok || String.eqb tok "-0"
        then Some (JNum z, rest) else None
    | None => None
    end.

Definition expect (lit : string) (v : json) (s : string)
  : option (json * string) :=
  match Str.strip_prefix lit s with
  | Some rest => Some (v, rest)
  | None => None
  end.

Definition head_is (c : ascii) (s : string) : bool :=
  match s with
  | String a _ => Ascii.eqb a c
  | EmptyString => false
  end.

Definition tail_of (s : string) : string :=
  match s with
  | String _ r => r
  | EmptyString => EmptyString
  end.

Fixpoint parse_value (fuel : nat) (s : string) : option (json * string) :=
  match fuel with
  | O => None
  | S f =>
      match skip_ws s with
      | EmptyString => None
      | String c rest =>
          if Ascii.eqb c "n" then expect "ull" JNull rest
          else if Ascii.eqb c "t" then expect "rue" (JBool true) rest
          else if Ascii.eqb c "f" then expect "alse" (JBool false) rest
          else if Ascii.eqb c dquote then
            match parse_chars rest with
            | Some (str, r) => Some (JStr str, r)
            | None => None
            end
          else if Ascii.eqb c "[" then
            if head_is "]" (skip_ws rest)
            then Some (JArr [], tail_of (skip_ws rest))
            else match parse_elems f rest with
                 | Some (l, r) => Some (JArr l, r)
                 | None => None
                 end
          else if Ascii.eqb c "{" then
            if head_is "}" (skip_ws rest)
            then Some (JObj [], tail_of (skip_ws rest))
            else match parse_members f rest with
                 | Some (ms, r) => Some (JObj (obj_of_members ms), r)
                 | None => None
                 end
          else if is_num_char c then parse_number (String c rest)
          else None
      end
  end
with parse_elems (fuel : nat) (s : string) : option (list json * string) :=
  match fuel with
  | O => None
  | S f =>
      match parse_value f s with
      | Some (v, r) =>
          let r' := skip_ws r in
          if head_is "," r' then
            match parse_elems f (tail_of r') with
            | Some (l, r'') => Some (v :: l, r'')
            | None => None
            end
          else if head_is "]" r' then Some ([v], tail_of r')
          else None
      | None => None
      end
  end
with parse_members (fuel : nat) (s : string)
  : option (list (string * json) * string) :=
  match fuel with
  | O => None
  | S f =>
      let s1 := skip_ws s in
      if head_is dquote s1 then
        match parse_chars (tail_of s1) with
        | Some (key, r1) =>
            let r2 := skip_ws r1 in
            if head_is ":" r2 then
              match parse_value f (tail_of r2) with
              | Some (v, r3) =>
                  let r4 := skip_ws r3 in
                  if head_is "," r4 then
                    match parse_members f (tail_of r4) with
                    | Some (ms, r5) => Some ((key, v) :: ms, r5)
                    | None => None
                    end
                  else if head_is "}" r4 then Some ([(key, v)], tail_of r4)
                  else None
              | None => None
              end
            else None
        | None => None
        end
      else None
  end.

(** [JSON.parse(text)]: [None] stands for the SyntaxError it throws. *)
Definition JSON_parse (text : string) : option json :=
  match parse_value (2 * String.length text) text with
  | Some (v, rest) =>
      match skip_ws rest with
      | EmptyString => Some v
      | String _ _ => None
      end
  | None => None
  end.

(** *** Notions for the proofs about the two functions *)

(** What may follow a value inside a text. *)
Definition terminator (k : string) : Prop :=
  k = EmptyString
  \/ exists r, k = String "," r \/ k = String "]" r \/ k = String "}" r.

(** The characters a value's text can start with. *)
Definition starts_value (c : ascii) : bool :=
  Ascii.eqb c "n" || Ascii.eqb c "t" || Ascii.eqb c "f" || Ascii.eqb c dquote
  || Ascii.eqb c "[" || Ascii.eqb c "{" || is_num_char c.

(** [parse_value] reads the text of [v] back, whatever follows it. *)
Definition reads_back (v : json) : Prop :=
  forall fuel k, (cost v <= fuel)%nat -> terminator k ->
    parse_value fuel (pr v k) = Some (v, k).

(** The text of [v] is long enough for the fuel [JSON_parse] takes. *)
Definition fits (v : json) : Prop :=
  forall k, (cost v + 2 * String.length k + 1 <= 2 * String.length (pr v k))%nat.

Definition tail_cost (l : list json) : nat :=
  fold_right (fun x acc => S (cost x + acc))%nat O l.

Definition members_cost (o : list (string * json)) : nat :=
  fold_right (fun kv acc => S (cost (snd kv) + acc))%nat O o.

Definition pr_member (kv : string * json) (k : string) : string :=
  quote (fst kv) (String ":" (pr (snd kv) k)).

End JSON.

(** ** Dates: [new Date().toISOString()] and [Date.parse]

    A time value is a number of milliseconds since the epoch, between
    [-8.64e15] and [8.64e15]. *)

Module DateTime.
Import Chars.

Definition msPerDay : Z := 86400000.


(** Year, month (1 to 12) and day of the month of a day number, in the
    proleptic Gregorian calendar; day 0 is 1970-01-01. *)
Definition civil_of_days (days : Z) : Z * Z * Z :=
  let z := days + 719468 in
  let era := z / 146097 in
  let doe := z mod 146097 in
  let yoe := (doe - doe / 1460 + doe / 36524 - doe / 146096) / 365 in
  let doy := doe - (365 * yoe + yoe / 4 - yoe / 100) in
  let mp := (5 * doy + 2) / 153 in
  let d := doy - (153 * mp + 2) / 5 + 1 in
  let m := if mp <? 10 then mp + 3 else mp - 9 in
  (yoe + era * 400 + (if m <=? 2 then 1 else 0), m, d).


(** [n] in decimal, on [width] digits. *)
Fixpoint digits (width : nat) (n : Z) : string :=
  match width with
  | O => EmptyString
  | S w => digits w (n / 10) +:+ Str.of_char (of_code (48 + n mod 10))
  end.

Definition year_string (y : Z) : string :=
  if (0 <=? y) && (y <=? 9999) then digits 4 y
  else if y <? 0 then String "-" (digits 6 (- y))
  else String "+" (digits 6 y).

(** [new Date(t).toISOString()] *)
Definition toISOString (t : Z) : string :=
  let '(y, m, d) := civil_of_days (t / msPerDay) in
  let ms := t mod msPerDay in
  year_string y +:+ "-" +:+ digits 2 m +:+ "-" +:+ digits 2 d +:+ "T"
  +:+ digits 2 (ms / 3600000) +:+ ":" +:+ digits 2 ((ms / 60000) mod 60)
  +:+ ":" +:+ digits 2 ((ms / 1000) mod 60) +:+ "." +:+ digits 3 (ms mod 1000)
  +:+ "Z".

(** Exactly [width] decimal digits at the head of [s]. *)
Fixpoint read_digits (width : nat) (acc : Z) (s : string) : option (Z * string) :=
  match width with
  | O => Some (acc, s)
  | S w =>
      match s with
      | String c s' =>
          if is_digit c then read_digits w (acc * 10 + (code c - 48)) s'
          else None
      | EmptyString => None
      end
  end.

Definition read_char (c : ascii) (s : string) : option string :=
  match s with
  | String a s' => if Ascii.eqb a c then Some s' else None
  | EmptyString => None
  end.




Definition field (width : nat) (sep : ascii) (r : option (Z * string))
  : option (Z * Z * string) :=
  match r with
  | Some (a, s) =>
      match read_char sep s with
      | Some s' =>
          match read_digits width 0 s' with
          | Some (b, s'') => Some (a, b, s'')
          | None => None
          end
      | None => None
      end
  | None => None
  end.


End DateTime.

(** ** The URL parser: [new URL(req.url, base).pathname]

    The base is [http://localhost:PORT]; the request target is in origin
    form (it starts with one [/], as does every target [server] hands to
    [handleApi]).  The path is parsed as the URL standard's path state
    does for an http URL: segments end at [/] or [\], the path ends at
    [?] or [#], dot segments are resolved, and the characters of the path
    percent-encode set are escaped. *)

Module URL.
Import Chars.

Definition in_path_encode_set (c : ascii) : bool :=
  let n := code c in
  (n <? 33) || (126 <? n)
  || (n =? 34) || (n =? 35) || (n =? 60) || (n =? 62) || (n =? 63)
  || (n =? 94) || (n =? 96) || (n =? 123) || (n =? 125).

Definition pct_encode (c : ascii) : string :=
  if in_path_encode_set c then
    String "%" (String (upper_hex_digit (code c / 16))
                  (String (upper_hex_digit (code c mod 16)) EmptyString))
  else Str.of_char c.

Definition lower (s : string) : string := Str.map_chars to_lower s.

Definition is_single_dot (buf : string) : bool :=
  let b := lower buf in String.eqb b "." || String.eqb b "%2e".

Definition is_double_dot (buf : string) : bool :=
  let b := lower buf in
  String.eqb b ".." || String.eqb b ".%2e"
  || String.eqb b "%2e." || String.eqb b "%2e%2e".

(** The end of a path segment; [slash] tells whether a separator ended it
    (otherwise the path itself ends here). *)
Definition end_segment (buf : string) (slash : bool) (path : list string)
  : list string :=
  if is_double_dot buf then
    if slash then removelast path else removelast path ++ [EmptyString]
  else if is_single_dot buf then
    if slash then path else path ++ [EmptyString]
  else path ++ [buf].

Definition is_separator (c : ascii) : bool :=
  Ascii.eqb c "/" || Ascii.eqb c backslash.

Definition ends_path (c : ascii) : bool :=
  Ascii.eqb c "?" || Ascii.eqb c "#".

Fixpoint path_state (input buf : string) (path : list string) : list string :=
  match input with
  | EmptyString => end_segment buf false path
  | String c rest =>
      if ends_path c then end_segment buf false path
      else if is_separator c then path_state rest EmptyString (end_segment buf true path)
      else path_state rest (buf +:+ pct_encode c) path
  end.

Fixpoint serialize_path (path : list string) : string :=
  match path with
  | [] => EmptyString
  | seg :: path' => String "/" (seg +:+ serialize_path path')
  end.

Definition is_tab_or_newline (c : ascii) : bool :=
  let n := code c in (n =? 9) || (n =? 10) || (n =? 13).

Definition is_c0_or_space (c : ascii) : bool := code c <? 33.

Fixpoint remove_tab_newline (s : string) : string :=
  match s with
  | EmptyString => EmptyString
  | String c s' =>
      if is_tab_or_newline c then remove_tab_newline s'
      else String c (remove_tab_newline s')
  end.

Fixpoint trim_left (s : string) : string :=
  match s with
  | EmptyString => EmptyString
  | String c s' => if is_c0_or_space c then trim_left s' else s
  end.

Fixpoint trim_right (s : string) : string :=
  match s with
  | EmptyString => EmptyString
  | String c s' =>
      match trim_right s' with
      | EmptyString => if is_c0_or_space c then EmptyString else Str.of_char c
      | r => String c r
      end
  end.

Definition url_pathname (target : string) : string :=
  let input := remove_tab_newline (trim_right (trim_left target)) in
  match input with
  | String c rest =>
      if is_separator c then serialize_path (path_state rest EmptyString [])
      else serialize_path (path_state input EmptyString [])
  | EmptyString => "/"
  end.

End URL.

(** ** Static paths: decodeURIComponent, path.join, path.extname *)

Module Path.
Import Chars.

Inductive item : Type :=
  | Raw (c : ascii)
  | Dec (b : Z).

(** The escapes [%XX] of [s] replaced by their bytes; [None] when a [%]
    is not followed by two hexadecimal digits. *)
Fixpoint unescape (s : string) : option (list item) :=
  match s with
  | EmptyString => Some []
  | String c rest =>
      if Ascii.eqb c "%" then
        match rest with
        | String h1 (String h2 rest') =>
            match hex_value h1, hex_value h2, unescape rest' with
            | Some x, Some y, Some l => Some (Dec (x * 16 + y) :: l)
            | _, _, _ => None
            end
        | _ => None
        end
      else
        match unescape rest with
        | Some l => Some (Raw c :: l)
        | None => None
        end
  end.

Definition is_cont (b : Z) : bool := (128 <=? b) && (b <=? 191).

Definition bytes2 (a b : Z) : string :=
  String (of_code a) (String (of_code b) EmptyString).

(** The escaped bytes must spell well-formed UTF-8: an escaped byte above
    127 starts a sequence whose other bytes are escaped as well. *)
Fixpoint utf8_items (l : list item) : option string :=
  match l with
  | [] => Some EmptyString
  | Raw c :: l' => option_map (String c) (utf8_items l')
  | Dec b :: l' =>
      if b <? 128 then option_map (String (of_code b)) (utf8_items l')
      else if (194 <=? b) && (b <=? 223) then
        match l' with
        | Dec b1 :: l1 =>
            if is_cont b1
            then option_map (String.append (bytes2 b b1)) (utf8_items l1)
            else None
        | _ => None
        end
      else if (224 <=? b) && (b <=? 239) then
        match l' with
        | Dec b1 :: Dec b2 :: l2 =>
            if is_cont b1 && is_cont b2
               && negb ((b =? 224) && (b1 <? 160))
               && negb ((b =? 237) && (159 <? b1))
            then option_map
                   (String.append (bytes2 b b1 +:+ Str.of_char (of_code b2)))
                   (utf8_items l2)
            else None
        | _ => None
        end
      else if (240 <=? b) && (b <=? 244) then
        match l' with
        | Dec b1 :: Dec b2 :: Dec b3 :: l3 =>
            if is_cont b1 && is_cont b2 && is_cont b3
               && negb ((b =? 240) && (b1 <? 144))
               && negb ((b =? 244) && (143 <? b1))
            then option_map
                   (String.append (bytes2 b b1 +:+ bytes2 b2 b3))
                   (utf8_items l3)
            else None
        | _ => None
        end
      else None
  end.

(** [decodeURIComponent(s)]: [None] stands for the URIError it throws. *)
Definition decodeURIComponent (s : string) : option string :=
  match unescape s with
  | Some l => utf8_items l
  | None => None
  end.

(** The segments of a path after normalisation; [..] above the root of an
    absolute path is dropped. *)
Fixpoint normalize_segments (allowAboveRoot : bool) (segs acc : list string)
  : list string :=
  match segs with
  | [] => acc
  | seg :: segs' =>
      if String.eqb seg "" || String.eqb seg "." then
        normalize_segments allowAboveRoot segs' acc
      else if String.eqb seg ".." then
        match List.last acc "" with
        | EmptyString =>
            normalize_segments allowAboveRoot segs'
              (if allowAboveRoot then acc ++ [".."] else acc)
        | l =>
            if String.eqb l ".." then
              normalize_segments allowAboveRoot segs' (acc ++ [".."])
            else normalize_segments allowAboveRoot segs' (removelast acc)
        end
      else normalize_segments allowAboveRoot segs' (acc ++ [seg])
  end.

Definition ends_with_slash (p : string) : bool :=
  match List.last (Str.split "/" p) "x" with
  | EmptyString => true
  | _ => false
  end.

(** [path.normalize(p)] (POSIX) *)
Definition normalize (p : string) : string :=
  match p with
  | EmptyString => "."
  | String c _ =>
      let isAbsolute := Ascii.eqb c "/" in
      let trailing := ends_with_slash p in
      let body :=
        Str.join "/" (normalize_segments (negb isAbsolute) (Str.split "/" p) []) in
      match body with
      | EmptyString =>
          if isAbsolute then "/" else if trailing then "./" else "."
      | _ =>
          let body' := if trailing then body +:+ "/" else body in
          if isAbsolute then String "/" body' else body'
      end
  end.

(** [path.join(a, b)] (POSIX) *)
Definition join (a b : string) : string :=
  match a, b with
  | EmptyString, EmptyString => "."
  | EmptyString, _ => normalize b
  | _, EmptyString => normalize a
  | _, _ => normalize (a +:+ "/" +:+ b)
  end.

(** The part of [s] from its last dot on, if it has a dot. *)
Fixpoint from_last_dot (s : string) : option string :=
  match s with
  | EmptyString => None
  | String c s' =>
      match from_last_dot s' with
      | Some e => Some e
      | None => if Ascii.eqb c "." then Some s else None
      end
  end.

(** The last non-empty component of a path. *)
Definition basename (p : string) : string :=
  List.last (filter (fun seg => negb (String.eqb seg "")) (Str.split "/" p)) "".

(** [path.extname(p)]: from the last dot of the last component on, when
    that dot is not its first character and the component is not [..]. *)
Definition extname (p : string) : string :=
  match basename p with
  | EmptyString => EmptyString
  | String c rest =>
      if String.eqb (String c rest) ".." then EmptyString
      else match from_last_dot rest with
           | Some e => e
           | None => EmptyString
           end
  end.

End Path.

(** ** The Redis client

    [redis] is either [null] (no REDIS_URL, or the first connection
    failed) or a client.  A client whose server answers holds the
    database, a finite map from keys to string values; the commands of a
    client whose server does not answer are rejected. *)

Module Redis.
Import JSON.

Inductive error : Type :=
  | SyntaxError
  | TypeError
  | ReplyError
  | ConnectionError.

(** [err.message]; the wording of the engine and of the client library
    is not modelled beyond telling the errors apart. *)
Definition message (e : error) : string :=
  match e with
  | SyntaxError => "Unexpected token in JSON"
  | TypeError => "Cannot destructure property of null"
  | ReplyError => "ERR syntax error"
  | ConnectionError => "Reached the max retries per request limit"
  end.

Inductive client : Type :=
  | Ready (db : gmap string string)
  | Unreachable.

Inductive result (A : Type) : Type :=
  | Ok (a : A)
  | Throw (e : error).
Arguments Ok {A} a.
Arguments Throw {A} e.

(** An asynchronous computation of the handler: it runs against the
    client, and either returns or throws, in both cases leaving the
    client as the commands completed so far made it. *)
Definition M (A : Type) : Type := client -> result A * client.

Definition ret {A} (a : A) : M A := fun c => (Ok a, c).
Definition throw {A} (e : error) : M A := fun c => (Throw e, c).
Definition bind {A B} (m : M A) (f : A -> M B) : M B :=
  fun c =>
    match m c with
    | (Ok a, c') => f a c'
    | (Throw e, c') => (Throw e, c')
    end.

Definition command {A} (f : gmap string string -> A * gmap string string) : M A :=
  fun c =>
    match c with
    | Ready db => let (a, db') := f db in (Ok a, Ready db')
    | Unreachable => (Throw ConnectionError, Unreachable)
    end.

(** [redis.get(key)]: [None] is the [null] reply. *)
Definition get (key : string) : M (option string) :=
  command (fun db => (db !! key, db)).

(** [redis.set(key, value)] for a string [value]. *)
Definition set (key value : string) : M unit :=
  command (fun db => (tt, <[key := value]> db)).

(** [redis.del(key)] *)
Definition del (key : string) : M unit :=
  command (fun db => (tt, delete key db)).

(** Glob patterns made of literal characters, [?] and [*]. *)
Fixpoint glob (p s : string) : bool :=
  match p with
  | EmptyString => String.eqb s ""
  | String c p' =>
      if Ascii.eqb c "*" then
        (fix star (s : string) : bool :=
           glob p' s
           || match s with
              | EmptyString => false
              | String _ s' => star s'
              end) s
      else
        match s with
        | EmptyString => false
        | String d s' => (Ascii.eqb c "?" || Ascii.eqb c d) && glob p' s'
        end
  end.

(** [redis.keys(pattern)]; the order of the reply is the store's. *)
Definition keys (pattern : string) : M (list string) :=
  command (fun db =>
    (filter (fun k => glob pattern k = true) (map fst (map_to_list db)), db)).

(** [redis.ping()] *)
Definition ping : M string := command (fun db => ("PONG", db)).

(** [String(v)], as in a template literal; numbers are below [10^21] in
    magnitude. *)
Fixpoint js_toString (v : json) : string :=
  match v with
  | JNull => "null"
  | JBool true => "true"
  | JBool false => "false"
  | JNum n => pr_int n
  | JStr s => s
  | JArr l =>
      Str.join ","
        (map (fun x => match x with JNull => EmptyString | _ => js_toString x end) l)
  | JObj _ => "[object Object]"
  end.

(** The arguments the client sends for a value: an array is flattened
    into its items, everything is converted with [String], [null]
    becoming the empty string. *)
Definition to_arg (v : json) : string :=
  match v with
  | JNull => EmptyString
  | _ => js_toString v
  end.

Definition command_args (v : json) : list string :=
  match v with
  | JArr l => map to_arg l
  | _ => [to_arg v]
  end.

(** [redis.set(key, v)] for a value that need not be a string.  SET
    takes one value; its options (NX, EX, ...) are not modelled, so with
    any other number of arguments the server replies with an error. *)
Definition set_value (key : string) (v : json) : M unit :=
  match command_args v with
  | [value] => set key value
  | _ => bind ping (fun _ => throw ReplyError)
  end.

End Redis.

Declare Scope redis_scope.
Delimit Scope redis_scope with redis.
Notation "'let*' x ':=' m 'in' k" := (Redis.bind m (fun x => k))
  (at level 10, x name, m at level 100, k at level 200) : redis_scope.
Notation "'do*' m 'in' k" := (Redis.bind m (fun _ => k))
  (at level 10, m at level 100, k at level 200) : redis_scope.

(** ** The server: [parseBody], [sendJson], [handleApi] and the request
    listener *)

Module Server.
Import JSON Redis.
Local Open Scope redis_scope.

Record request : Type := {
  method : string;   (* req.method *)
  url : string;      (* req.url, the request target *)
  body : string      (* the chunks of the request body, concatenated *)
}.

Record response : Type := {
  status : Z;
  headers : list (string * string);
  content : string
}.

Fixpoint header (name : string) (hs : list (string * string)) : option string :=
  match hs with
  | [] => None
  | (n, v) :: hs' => if String.eqb n name then Some v else header name hs'
  end.

Definition mimeTypes : list (string * string) :=
  [ (".html", "text/html");
    (".css", "text/css");
    (".js", "application/javascript");
    (".json", "application/json");
    (".png", "image/png");
    (".jpg", "image/jpeg");
    (".gif", "image/gif");
    (".svg", "image/svg+xml");
    (".ico", "image/x-icon") ].

(** JavaScript truthiness of a JSON value, and of a possibly undefined
    one. *)
Definition truthy (v : json) : bool :=
  match v with
  | JNull => false
  | JBool b => b
  | JNum n => negb (n =? 0)
  | JStr s => negb (String.eqb s "")
  | JArr _ => true
  | JObj _ => true
  end.

Definition truthy_opt (v : option json) : bool :=
  match v with
  | Some x => truthy x
  | None => false
  end.

(** A string or [null] reply of the store, as a condition. *)
Definition truthy_reply (r : option string) : bool :=
  match r with
  | Some s => negb (String.eqb s "")
  | None => false
  end.

(** [v.name] for the property names this program reads ([id], [name],
    [type], [size], [metadata], [rawData], [content], [chapters],
    [progress], [notes]), none of which a string, an array or a number
    has; [None] is [undefined].  The value [null] has no properties:
    reading one throws, see [require_object_coercible]. *)
Definition prop (v : json) (name : string) : option json :=
  match v with
  | JObj o => obj_get name o
  | _ => None
  end.

Definition require_object_coercible (v : json) : M unit :=
  match v with
  | JNull => throw TypeError
  | _ => ret tt
  end.

(** An object literal whose property values may be undefined, as
    JSON.stringify sees it: such properties are skipped. *)
Fixpoint defined_props (ps : list (string * option json)) : list (string * json) :=
  match ps with
  | [] => []
  | (k, Some v) :: ps' => (k, v) :: defined_props ps'
  | (_, None) :: ps' => defined_props ps'
  end.

Definition index_props {A} (f : A -> json) (l : list A) : list (string * json) :=
  map (fun iv => (pr_int (Z.of_nat (fst iv)), f (snd iv)))
      (combine (seq 0 (length l)) l).

(** The own enumerable properties [{...v}] copies: those of an object,
    the items of an array, the characters of a string (here its bytes). *)
Definition spread_props (v : json) : list (string * json) :=
  match v with
  | JObj o => o
  | JArr l => index_props (fun x => x) l
  | JStr s => index_props (fun c => JStr (Str.of_char c)) (list_ascii_of_string s)
  | _ => []
  end.

(** [body ? JSON.parse(body) : {}]; [None] when JSON.parse throws. *)
Definition body_value (text : string) : option json :=
  match text with
  | EmptyString => Some (JObj [])
  | _ => JSON_parse text
  end.

(** Parse JSON body *)
Definition parseBody (req : request) : M json :=
  match body_value (body req) with
  | Some v => ret v
  | None => throw SyntaxError
  end.

(** [JSON.parse] of a stored value. *)
Definition parse_stored (text : string) : M json :=
  match JSON_parse text with
  | Some v => ret v
  | None => throw SyntaxError
  end.

(** Send JSON response *)
Definition sendJson (data : json) (st : Z) : response :=
  {| status := st;
     headers := [("Content-Type", "application/json");
                 ("Access-Control-Allow-Origin", "*")];
     content := JSON_stringify data |}.

Definition preflight : response :=
  {| status := 204;
     headers := [("Access-Control-Allow-Origin", "*");
                 ("Access-Control-Allow-Methods", "GET, POST, PUT, DELETE, OPTIONS");
                 ("Access-Control-Allow-Headers", "Content-Type")];
     content := EmptyString |}.

(** [/^\/api\/books\/[^/]+$/] *)
Definition is_book_path (pathname : string) : bool :=
  match Str.strip_prefix "/api/books/" pathname with
  | Some seg => negb (String.eqb seg "") && negb (Str.contains_char "/" seg)
  | None => false
  end.

(** [pathname.split('/').pop()] *)
Definition last_segment (pathname : string) : string :=
  Str.last_or EmptyString (Str.split "/" pathname).

Definition book_key (bookId kind : string) : string :=
  "book:" +:+ bookId +:+ ":" +:+ kind.

(** The loop of GET /api/books over the keys of the reply. *)
Fixpoint collect_books (keys : list string) (books : list json) : M (list json) :=
  match keys with
  | [] => ret books
  | key :: keys' =>
      let* meta := Redis.get key in
      match meta with
      | Some text =>
          if truthy_reply meta then
            let* v := parse_stored text in collect_books keys' (books ++ [v])
          else collect_books keys' books
      | None => collect_books keys' books
      end
  end.

Definition list_books : M response :=
  let* keys := Redis.keys "book:*:meta" in
  let* books := collect_books keys [] in
  ret (sendJson (JObj [("books", JArr books)]) 200).

Definition get_book (pathname : string) : M response :=
  let bookId := last_segment pathname in
  let* meta := Redis.get (book_key bookId "meta") in
  let* data := Redis.get (book_key bookId "data") in
  match meta with
  | Some text =>
      if truthy_reply meta then
        let* parsed := parse_stored text in
        ret (sendJson
               (JObj (obj_set "rawData"
                        (match data with Some d => JStr d | None => JNull end)
                        (spread_props parsed)))
               200)
      else ret (sendJson (JObj [("error", JStr "Book not found")]) 404)
  | None => ret (sendJson (JObj [("error", JStr "Book not found")]) 404)
  end.

(** The record POST /api/books stores under the meta key. *)
Definition metaData (now : Z) (body : json) : json :=
  JObj (defined_props
          [("id", prop body "id"); ("name", prop body "name");
           ("type", prop body "type"); ("size", prop body "size");
           ("metadata", prop body "metadata");
           ("savedAt", Some (JStr (DateTime.toISOString now)))]).

Definition save_book (now : Z) (req : request) : M response :=
  let* body := parseBody req in
  do* require_object_coercible body in
  let id := prop body "id" in
  let name := prop body "name" in
  let rawData := prop body "rawData" in
  let content := prop body "content" in
  let chapters := prop body "chapters" in
  match id with
  | Some idv =>
      if negb (truthy idv) || negb (truthy_opt name) then
        ret (sendJson (JObj [("error", JStr "Missing required fields")]) 400)
      else
        let bookId := js_toString idv in
        (* Store metadata separately (smaller, for listing) *)
        do* Redis.set (book_key bookId "meta") (JSON_stringify (metaData now body)) in
        (* Store raw data if provided (Base64) *)
        do* (match rawData with
             | Some raw =>
                 if truthy raw then Redis.set_value (book_key bookId "data") raw
                 else ret tt
             | None => ret tt
             end) in
        (* Store content/chapters for quick access *)
        do* (if truthy_opt content || truthy_opt chapters then
               Redis.set (book_key bookId "content")
                 (JSON_stringify
                    (JObj (defined_props
                             [("content", content); ("chapters", chapters)])))
             else ret tt) in
        ret (sendJson (JObj [("success", JBool true); ("id", idv)]) 200)
  | None =>
      ret (sendJson (JObj [("error", JStr "Missing required fields")]) 400)
  end.

Definition delete_book (pathname : string) : M response :=
  let bookId := last_segment pathname in
  do* Redis.del (book_key bookId "meta") in
  do* Redis.del (book_key bookId "data") in
  do* Redis.del (book_key bookId "content") in
  ret (sendJson (JObj [("success", JBool true)]) 200).

(** GET /api/progress and GET /api/notes *)
Definition get_record (key field : string) : M response :=
  let* stored := Redis.get key in
  match stored with
  | Some text =>
      if truthy_reply stored then
        let* v := parse_stored text in ret (sendJson (JObj [(field, v)]) 200)
      else ret (sendJson (JObj [(field, JObj [])]) 200)
  | None => ret (sendJson (JObj [(field, JObj [])]) 200)
  end.

(** [v || {}] *)
Definition or_empty (v : option json) : json :=
  match v with
  | Some x => if truthy x then x else JObj []
  | None => JObj []
  end.

(** POST /api/progress and POST /api/notes *)
Definition post_record (key field : string) (req : request) : M response :=
  let* body := parseBody req in
  do* require_object_coercible body in
  do* Redis.set key (JSON_stringify (or_empty (prop body field))) in
  ret (sendJson (JObj [("success", JBool true)]) 200).

Definition get_status : M response :=
  let* pong := Redis.ping in
  ret (sendJson
         (JObj [("redis",
                 JStr (if String.eqb pong "PONG" then "connected" else "error"))])
         200).

(** The body of the [try] block of [handleApi]. *)
Definition api_routes (now : Z) (req : request) (pathname : string) : M response :=
  let m := method req in
  if String.eqb pathname "/api/books" && String.eqb m "GET" then list_books
  else if is_book_path pathname && String.eqb m "GET" then get_book pathname
  else if String.eqb pathname "/api/books" && String.eqb m "POST" then save_book now req
  else if is_book_path pathname && String.eqb m "DELETE" then delete_book pathname
  else if String.eqb pathname "/api/progress" && String.eqb m "GET" then
    get_record "user:progress" "progress"
  else if String.eqb pathname "/api/progress" && String.eqb m "POST" then
    post_record "user:progress" "progress" req
  else if String.eqb pathname "/api/notes" && String.eqb m "GET" then
    get_record "user:notes" "notes"
  else if String.eqb pathname "/api/notes" && String.eqb m "POST" then
    post_record "user:notes" "notes" req
  else if String.eqb pathname "/api/status" && String.eqb m "GET" then get_status
  else ret (sendJson (JObj [("error", JStr "Not found")]) 404).

(** API Routes.  [now] is the clock at the time of the request; [redis]
    is the module variable, [None] for [null]. *)
Definition handleApi (now : Z) (req : request) (redis : option client)
  : response * option client :=
  let pathname := URL.url_pathname (url req) in
  if String.eqb (method req) "OPTIONS" then (preflight, redis)
  else
    match redis with
    | None =>
        (sendJson (JObj [("error", JStr "Cloud storage not available")]) 503, None)
    | Some c =>
        match api_routes now req pathname c with
        | (Ok resp, c') => (resp, Some c')
        | (Throw err, c') =>
            (sendJson (JObj [("error", JStr (message err))]) 500, Some c')
        end
    end.

(** *** Static files *)

Inductive read_result : Type :=
  | Content (data : string)
  | Failed (code : string).

(** The directory of the script and the file system under it. *)
Record site : Type := {
  dirname : string;                       (* __dirname *)
  fs : string -> read_result              (* what fs.readFile finds *)
}.

(** [fs.readFile(p, callback)]: a path with a NUL byte is refused with an
    exception before the file system is asked.  [None] stands for a
    request that gets no response because of an exception. *)
Definition readFile (s : site) (p : string)
    (callback : read_result -> option response) : option response :=
  if Str.contains_char Chars.nul p then None else callback (fs s p).

Definition server_error : response :=
  {| status := 500; headers := []; content := "Server Error" |}.

(** The file path of a request target: [urlPath] and [filePath] of the
    listener; [None] when decodeURIComponent throws. *)
Definition resolve (root target : string) : option string :=
  match Path.decodeURIComponent (hd EmptyString (Str.split "?" target)) with
  | Some urlPath =>
      let filePath :=
        if String.eqb urlPath "/" || String.eqb urlPath ""
        then "/ReadNote Plus.html" else urlPath in
      Some (Path.join root filePath)
  | None => None
  end.

Definition entry_document (s : site) : string :=
  Path.join (dirname s) "ReadNote Plus.html".

(** Serve static files *)
Definition serve_static (s : site) (req : request) : option response :=
  match resolve (dirname s) (url req) with
  | None => None
  | Some filePath =>
      let ext := URL.lower (Path.extname filePath) in
      let contentType :=
        match header ext mimeTypes with
        | Some t => t
        | None => "application/octet-stream"
        end in
      readFile s filePath (fun r =>
        match r with
        | Failed code =>
            if String.eqb code "ENOENT" then
              (* Serve main page for any route (SPA behavior) *)
              readFile s (entry_document s) (fun r' =>
                match r' with
                | Failed _ => Some server_error
                | Content data =>
                    Some {| status := 200;
                            headers := [("Content-Type", "text/html")];
                            content := data |}
                end)
            else Some server_error
        | Content data =>
            Some {| status := 200;
                    headers := [("Content-Type", contentType)];
                    content := data |}
        end)
  end.

(** Main server: the request listener.  The result is the response, if
    any, and the module variable [redis] after the request. *)
Definition server (s : site) (now : Z) (req : request) (redis : option client)
  : option response * option client :=
  if Str.startsWith "/api/" (url req) then
    let (resp, redis') := handleApi now req redis in (Some resp, redis')
  else (serve_static s req, redis).

(** *** A file system given by a directory tree *)

Unset Elimination Schemes.
Inductive node : Type :=
  | File (data : string)
  | Dir (entries : list (string * node)).
Set Elimination Schemes.

Fixpoint entry (name : string) (entries : list (string * node)) : option node :=
  match entries with
  | [] => None
  | (n, x) :: entries' => if String.eqb n name then Some x else entry name entries'
  end.

(** Reading the file at the end of the segments [segs], from [n] down;
    [slash] tells whether the path ends with a separator. *)
Fixpoint read_node (segs : list string) (slash : bool) (n : node) : read_result :=
  match segs with
  | [] =>
      match n with
      | File data => if slash then Failed "ENOTDIR" else Content data
      | Dir _ => Failed "EISDIR"
      end
  | seg :: segs' =>
      match n with
      | File _ => Failed "ENOTDIR"
      | Dir entries =>
          match entry seg entries with
          | Some n' => read_node segs' slash n'
          | None => Failed "ENOENT"
          end
      end
  end.

(** The file system whose root directory is [tree], on normalised
    absolute paths. *)
Definition tree_fs (tree : node) (p : string) : read_result :=
  read_node (filter (fun seg => negb (String.eqb seg "")) (Str.split "/" p))
            (Path.ends_with_slash p) tree.

End Server.

(** ** Notions the properties are stated with *)

Module Spec.
Import JSON Redis Server.

(** The permissive cross-origin header. *)
Definition allows_any_origin (r : response) : Prop :=
  header "Access-Control-Allow-Origin" (headers r) = Some "*".

(** The body of the response is a JSON object with an [error] property. *)
Definition has_error_field (r : response) : Prop :=
  exists o e, JSON_parse (content r) = Some (JObj o) /\ obj_get "error" o = Some e.

(** The answer of a server without store: 503 and an [error]. *)
Definition storeless_answer (out : option response * option client) : Prop :=
  exists r, fst out = Some r /\ status r = 503 /\ has_error_field r.

(** The answer to a pre-flight request. *)
Definition preflight_answer (out : option response * option client) : Prop :=
  exists r, fst out = Some r /\ status r = 204 /\ content r = EmptyString
    /\ headers r =
       [("Access-Control-Allow-Origin", "*");
        ("Access-Control-Allow-Methods", "GET, POST, PUT, DELETE, OPTIONS");
        ("Access-Control-Allow-Headers", "Content-Type")].

(** A response made by [sendJson]. *)
Definition json_response (r : response) : Prop :=
  exists data st, r = sendJson data st.

(** Whenever the computation returns a response, [sendJson] made it. *)
Definition answers_json (m : M response) : Prop :=
  forall c r c', m c = (Ok r, c') -> json_response r.

(** [p] is the directory [root] or lies under it. *)
Definition inside (root p : string) : bool :=
  String.eqb p root || Str.startsWith (root +:+ "/") p.

(** A site for the examples: the script lives in [/srv/app], next to its
    entry document and a directory [css]. *)
Definition demo_tree : node :=
  Dir [("srv",
        Dir [("app",
              Dir [("ReadNote Plus.html", File "<html>ReadNote Plus</html>");
                   ("css", Dir [("main.css", File "body { margin: 0 }")])])]);
       ("etc", Dir [("passwd", File "root:x:0:0")])].

Definition demo_site : site :=
  {| dirname := "/srv/app"; fs := tree_fs demo_tree |}.

Definition GET (target : string) : request :=
  {| method := "GET"; url := target; body := EmptyString |}.

Definition POST (target : string) (data : json) : request :=
  {| method := "POST"; url := target; body := JSON_stringify data |}.

Definition DELETE (target : string) : request :=
  {| method := "DELETE"; url := target; body := EmptyString |}.

Definition OPTIONS (target : string) : request :=
  {| method := "OPTIONS"; url := target; body := EmptyString |}.


(** A character the URL parser leaves as it is inside a path segment. *)
Definition plain_char (c : ascii) : bool :=
  negb (URL.in_path_encode_set c) && negb (URL.is_separator c)
  && negb (URL.ends_path c).

(** A string that is one path segment for the URL parser, unchanged. *)
Definition plain_segment (seg : string) : bool :=
  negb (String.eqb seg "") && Str.forall_chars plain_char seg
  && negb (URL.is_single_dot seg) && negb (URL.is_double_dot seg).



(** The three kinds of key a book has. *)
Definition book_kind (kind : string) : Prop :=
  kind = "meta" \/ kind = "data" \/ kind = "content".

(** The keys POST /api/books may write for the body of [req]: the meta
    key of its [id], the data key when it has a [rawData], the content
    key when it has a [content] or [chapters]. *)
Definition written_keys (req : request) (k : string) : Prop :=
  exists b idv,
    body_value (body req) = Some b /\ prop b "id" = Some idv
    /\ (k = book_key (js_toString idv) "meta"
        \/ (k = book_key (js_toString idv) "data" /\ is_Some (prop b "rawData"))
        \/ (k = book_key (js_toString idv) "content"
            /\ (is_Some (prop b "content") \/ is_Some (prop b "chapters")))).

(** Run against a client in touch with its server, the computation
    leaves the client so, and changes the database at most at [keys]. *)
Definition writes_only {A} (keys : string -> Prop) (m : M A) : Prop :=
  forall db : gmap string string,
    exists res db', m (Ready db) = (res, Ready db')
                    /\ forall k, ~ keys k -> db' !! k = db !! k.

(** The absolute path with the segments [segs]. *)
Fixpoint abs_path (segs : list string) : string :=
  match segs with
  | [] => EmptyString
  | seg :: segs' => String "/" (seg +:+ abs_path segs')
  end.

(** A name a directory entry can have: not empty, not [.] or [..], and
    without [/]. *)
Definition entry_name (seg : string) : bool :=
  negb (String.eqb seg "") && negb (String.eqb seg ".")
  && negb (String.eqb seg "..") && negb (Str.contains_char "/" seg).

(** An entry name that a request target spells as it is. *)
Definition literal_name (seg : string) : bool :=
  entry_name seg && negb (Str.contains_char "%" seg)
  && negb (Str.contains_char "?" seg).

End Spec.


(** ** Further notions: the other routes and the static files *)

Module SpecMore.
Import JSON Redis Server Spec.

(** The body of the response is the text of the JSON value [v]. *)
Definition answers_with (r : response) (st : Z) (v : json) : Prop :=
  status r = st /\ JSON_parse (content r) = Some v.

(** Run against a client whose server does not answer, the computation
    leaves the client as it is, and what it returns satisfies [P]. *)
Definition offline {A} (P : A -> Prop) (m : M A) : Prop :=
  exists res, m Unreachable = (res, Unreachable)
              /\ forall a, res = Ok a -> P a.

(** An answer that is an error: 400, 404 or 500, with an [error] field. *)
Definition refusal (r : response) : Prop :=
  (status r = 400 \/ status r = 404 \/ status r = 500) /\ has_error_field r.


(** The singleton records: path, key and field of progress and of notes. *)
Definition record_route (pathname key field : string) : Prop :=
  (pathname = "/api/progress" /\ key = "user:progress" /\ field = "progress")
  \/ (pathname = "/api/notes" /\ key = "user:notes" /\ field = "notes").





(** A file served as it is. *)
Definition file_response (type data : string) : response :=
  {| status := 200; headers := [("Content-Type", type)]; content := data |}.

(** Whenever the computation returns, what it returns satisfies [P]. *)
Definition returns {A} (P : A -> Prop) (m : M A) : Prop :=
  forall c a c', m c = (Ok a, c') -> P a.

(** A response a route makes itself: by [sendJson], with status 200, 400
    or 404. *)
Definition route_answer (r : response) : Prop :=
  exists data st, r = sendJson data st /\ (st = 200 \/ st = 400 \/ st = 404).

(** The keys a request under [/api/] may write: those of the posted
    book, the three keys of the deleted book, the key of the posted
    singleton record; none for the other requests. *)
Definition route_keys (req : request) (k : string) : Prop :=
  let pathname := URL.url_pathname (url req) in
  (method req = "POST" /\ pathname = "/api/books" /\ written_keys req k)
  \/ (method req = "DELETE" /\ is_book_path pathname = true
      /\ exists kind, book_kind kind /\ k = book_key (last_segment pathname) kind)
  \/ (method req = "POST" /\ pathname = "/api/progress" /\ k = "user:progress")
  \/ (method req = "POST" /\ pathname = "/api/notes" /\ k = "user:notes").

End SpecMore.

(** * Properties

    ** Strings *)

Module StrFacts.
Lemma append_nil_r (s : string) : s +:+ "" = s.
Proof.
  induction s as [|c s IH]; [reflexivity|].
  change (String c (s +:+ "") = String c s). rewrite IH. reflexivity.
Qed.

Lemma append_assoc (a b c : string) : (a +:+ b) +:+ c = a +:+ (b +:+ c).
Proof.
  induction a as [|x a IH]; [reflexivity|].
  change (String x ((a +:+ b) +:+ c) = String x (a +:+ (b +:+ c))).
  rewrite IH. reflexivity.
Qed.

Lemma length_append a b :
  String.length (a +:+ b) = (String.length a + String.length b)%nat.
Proof.
  induction a as [|c a IH]; [reflexivity|].
  change (S (String.length (a +:+ b)) = S (String.length a + String.length b)).
  rewrite IH. reflexivity.
Qed.

End StrFacts.

(** ** JSON.parse reads back what JSON.stringify writes *)

Module JSONFacts.
Import Chars JSON StrFacts.

Lemma parse_chars_escape_char c r :
  parse_chars (escape_char c +:+ r) = prepend (Str.of_char c) (parse_chars r).
Proof.
  destruct c as [[] [] [] [] [] [] [] []]; reflexivity.
Qed.

Lemma parse_chars_escape s k :
  parse_chars (escape s (String dquote k)) = Some (s, k).
Proof.
  induction s as [|c s IH]; [reflexivity|].
  cbn [escape]. rewrite parse_chars_escape_char, IH. reflexivity.
Qed.

Lemma string_of_uint_digits d :
  Str.forall_chars is_digit (NilEmpty.string_of_uint d) = true.
Proof. induction d; simpl; auto. Qed.

Lemma pr_int_num_chars n : Str.forall_chars is_num_char (pr_int n) = true.
Proof.
  assert (H : forall d, Str.forall_chars is_num_char (NilZero.string_of_uint d) = true).
  { intros d. destruct d; try reflexivity;
    (pose proof (string_of_uint_digits d) as Hd; simpl; revert Hd;
     generalize (NilEmpty.string_of_uint d); clear;
     induction s; simpl; auto;
     intros [Ha Hs]%andb_prop; rewrite (IHs Hs); unfold is_num_char; rewrite Ha;
     rewrite orb_true_r; reflexivity). }
  unfold pr_int. destruct (Z.to_int n); simpl; auto.
Qed.

Lemma terminator_no_num k :
  terminator k ->
  match k with String c _ => is_num_char c = false | EmptyString => True end
  /\ starts_fraction k = false.
Proof.
  intros [-> | [r [-> | [-> | ->]]]]; split; reflexivity || exact I.
Qed.

Lemma span_num_app tok k :
  Str.forall_chars is_num_char tok = true ->
  match k with String c _ => is_num_char c = false | EmptyString => True end ->
  span_num (tok +:+ k) = (tok, k).
Proof.
  intros Htok Hk. induction tok as [|c tok IH]; simpl in *.
  - destruct k; [reflexivity|]. simpl. rewrite Hk. reflexivity.
  - apply andb_prop in Htok as [Hc Ht]. rewrite Hc, (IH Ht). reflexivity.
Qed.

Lemma to_int_proper n : Z.to_int n <> Decimal.Pos Decimal.Nil /\ Z.to_int n <> Decimal.Neg Decimal.Nil.
Proof.
  destruct n; simpl; split; try discriminate;
    intros [= E]; exact (Unsigned.to_uint_nonnil _ E).
Qed.

Lemma parse_number_pr_int n k :
  terminator k -> parse_number (pr_int n +:+ k) = Some (JNum n, k).
Proof.
  intros Hk. destruct (terminator_no_num k Hk) as [Hn Hf].
  unfold parse_number.
  rewrite (span_num_app _ _ (pr_int_num_chars n) Hn), Hf.
  unfold pr_int at 1.
  destruct (to_int_proper n) as [H1 H2].
  rewrite (NilZero.isi _ H1 H2), DecimalZ.of_to, String.eqb_refl.
  reflexivity.
Qed.

Lemma starts_value_not_ws c :
  starts_value c = true ->
  is_ws c = false /\ Ascii.eqb c "]" = false /\ Ascii.eqb c "}" = false.
Proof.
  destruct c as [[] [] [] [] [] [] [] []]; intros H;
    solve [discriminate H | repeat split].
Qed.

Lemma pr_int_start n : exists c r, pr_int n = String c r /\ is_num_char c = true.
Proof.
  pose proof (pr_int_num_chars n) as H.
  destruct (pr_int n) as [|c r] eqn:E.
  - exfalso. unfold pr_int in E. destruct (to_int_proper n) as [H1 H2].
    pose proof (NilZero.isi _ H1 H2) as Hi. rewrite E in Hi. discriminate Hi.
  - exists c, r. split; [reflexivity|]. simpl in H.
    apply andb_prop in H as [H _]. exact H.
Qed.

Lemma pr_start v k : exists c r, pr v k = String c r /\ starts_value c = true.
Proof.
  destruct v as [|[]|n|s|l|o]; simpl; try (eexists _, _; split; reflexivity).
  destruct (pr_int_start n) as (c & r & E & Hc). rewrite E. simpl.
  exists c, (r +:+ k). split; [reflexivity|].
  unfold starts_value. rewrite Hc. apply orb_true_r.
Qed.

Lemma skip_ws_pr v k : skip_ws (pr v k) = pr v k.
Proof.
  destruct (pr_start v k) as (c & r & E & Hc). rewrite E. simpl.
  destruct (starts_value_not_ws c Hc) as [-> _]. reflexivity.
Qed.

Lemma parse_value_num f c r :
  is_num_char c = true -> parse_value (S f) (String c r) = parse_number (String c r).
Proof.
  destruct c as [[] [] [] [] [] [] [] []]; intros H;
    solve [discriminate H | reflexivity].
Qed.

Lemma parse_value_arr f R :
  parse_value (S f) (String "[" R) =
  if head_is "]" (skip_ws R) then Some (JArr [], tail_of (skip_ws R))
  else match parse_elems f R with
       | Some (l, r) => Some (JArr l, r)
       | None => None
       end.
Proof. reflexivity. Qed.

Lemma parse_value_obj f R :
  parse_value (S f) (String "{" R) =
  if head_is "}" (skip_ws R) then Some (JObj [], tail_of (skip_ws R))
  else match parse_members f R with
       | Some (ms, r) => Some (JObj (obj_of_members ms), r)
       | None => None
       end.
Proof. reflexivity. Qed.

Lemma parse_value_str f R :
  parse_value (S f) (String dquote R) =
  match parse_chars R with
  | Some (str, r) => Some (JStr str, r)
  | None => None
  end.
Proof. reflexivity. Qed.

Lemma parse_elems_S f s :
  parse_elems (S f) s =
  match parse_value f s with
  | Some (v, r) =>
      let r' := skip_ws r in
      if head_is "," r' then
        match parse_elems f (tail_of r') with
        | Some (l, r'') => Some (v :: l, r'')
        | None => None
        end
      else if head_is "]" r' then Some ([v], tail_of r')
      else None
  | None => None
  end.
Proof. reflexivity. Qed.

Lemma parse_members_quote f key R :
  parse_members (S f) (quote key (String ":" R)) =
  match parse_value f R with
  | Some (v, r3) =>
      let r4 := skip_ws r3 in
      if head_is "," r4 then
        match parse_members f (tail_of r4) with
        | Some (ms, r5) => Some ((key, v) :: ms, r5)
        | None => None
        end
      else if head_is "}" r4 then Some ([(key, v)], tail_of r4)
      else None
  | None => None
  end.
Proof.
  unfold quote.
  change (parse_members (S f) (String dquote (escape key (String dquote (String ":" R)))))
    with (match parse_chars (escape key (String dquote (String ":" R))) with
          | Some (key, r1) =>
            let r2 := skip_ws r1 in
            if head_is ":" r2 then
              match parse_value f (tail_of r2) with
              | Some (v, r3) =>
                  let r4 := skip_ws r3 in
                  if head_is "," r4 then
                    match parse_members f (tail_of r4) with
                    | Some (ms, r5) => Some ((key, v) :: ms, r5)
                    | None => None
                    end
                  else if head_is "}" r4 then Some ([(key, v)], tail_of r4)
                  else None
              | None => None
              end
            else None
        | None => None
        end).
  rewrite parse_chars_escape. reflexivity.
Qed.

Lemma terminator_tail {A} (f : A -> string -> string) c l k :
  c = "]"%char \/ c = "}"%char -> terminator (pr_tail f c l k).
Proof.
  intros Hc. right. destruct l as [|x l]; simpl.
  - exists k. destruct Hc as [-> | ->]; auto.
  - eexists. left. reflexivity.
Qed.

Lemma parse_elems_pr k l :
  Forall reads_back l ->
  forall x f, reads_back x -> (S (cost x + tail_cost l) <= f)%nat ->
    parse_elems f (pr x (pr_tail pr "]" l k)) = Some (x :: l, k).
Proof.
  induction 1 as [|y l Hy Hl IH]; intros x f Hx Hf;
    (destruct f as [|f]; [lia|]); rewrite parse_elems_S.
  - rewrite Hx; [reflexivity | simpl in Hf; lia | apply terminator_tail; auto].
  - rewrite Hx; [| simpl in Hf; lia | apply terminator_tail; auto].
    cbn [pr_tail]. cbv zeta.
    change (skip_ws (String "," ?s)) with (String "," s).
    cbn [head_is tail_of]. change (Ascii.eqb "," ",") with true. cbv iota.
    rewrite IH; [reflexivity | exact Hy | simpl in Hf; lia].
Qed.

Lemma parse_members_pr k o :
  Forall (fun kv => reads_back (snd kv)) o ->
  forall kv f, reads_back (snd kv) -> (S (cost (snd kv) + members_cost o) <= f)%nat ->
    parse_members f (pr_member kv (pr_tail pr_member "}" o k)) = Some (kv :: o, k).
Proof.
  induction 1 as [|y o Hy Ho IH]; intros [key v] f Hx Hf; simpl in Hx;
    (destruct f as [|f]; [lia|]); unfold pr_member at 1; cbn [fst snd];
    rewrite parse_members_quote.
  - rewrite Hx; [reflexivity | simpl in Hf; lia | apply terminator_tail; auto].
  - rewrite Hx; [| simpl in Hf; lia | apply terminator_tail; auto].
    cbn [pr_tail]. cbv zeta.
    change (skip_ws (String "," ?s)) with (String "," s).
    cbn [head_is tail_of]. change (Ascii.eqb "," ",") with true. cbv iota.
    rewrite IH; [reflexivity | exact Hy | simpl in Hf; lia].
Qed.

Lemma existsb_eqb_false k (ks : list string) :
  existsb (String.eqb k) ks = false <-> ~ In k ks.
Proof.
  induction ks as [|a ks IH]; simpl; [tauto|].
  rewrite orb_false_iff, IH. destruct (String.eqb_spec k a); subst; intuition congruence.
Qed.

Lemma nodup_keys_NoDup ks : nodup_keys ks = true -> List.NoDup ks.
Proof.
  induction ks as [|k ks IH]; simpl; intros H; constructor;
    apply andb_prop in H as [H1 H2].
  - apply existsb_eqb_false. destruct (existsb _ _); [discriminate | reflexivity].
  - auto.
Qed.

Lemma obj_set_fresh k v o :
  ~ In k (map fst o) -> obj_set k v o = (o ++ [(k, v)])%list.
Proof.
  induction o as [|[k' v'] o IH]; simpl; intros H; [reflexivity|].
  destruct (String.eqb_spec k' k); [tauto|]. rewrite IH; tauto.
Qed.

Lemma obj_of_members_acc ms : forall acc,
  List.NoDup (map fst (acc ++ ms)%list) ->
  fold_left (fun acc kv => obj_set (fst kv) (snd kv) acc) ms acc = (acc ++ ms)%list.
Proof.
  induction ms as [|[k v] ms IH]; intros acc H; simpl.
  - symmetry. apply app_nil_r.
  - rewrite obj_set_fresh.
    + rewrite IH; rewrite <- app_assoc; [reflexivity | exact H].
    + rewrite map_app in H. simpl in H. apply List.NoDup_remove_2 in H.
      intros Hin. apply H. apply in_or_app. auto.
Qed.

Lemma obj_of_members_nodup o :
  nodup_keys (map fst o) = true -> obj_of_members o = o.
Proof.
  intros H. unfold obj_of_members. rewrite obj_of_members_acc; [reflexivity|].
  simpl. apply nodup_keys_NoDup, H.
Qed.

Lemma forallb_Forall_imp {A} (p : A -> bool) (P : A -> Prop) l :
  forallb p l = true -> Forall (fun x => p x = true -> P x) l -> Forall P l.
Proof.
  induction l as [|x l IH]; simpl; intros Hp HP; constructor;
    apply andb_prop in Hp as [H1 H2]; inversion HP; subst; auto.
Qed.

Theorem parse_value_pr v : wf_json v = true -> reads_back v.
Proof.
  induction v as [|b|n|s|l IHl|o IHo] using json_ind; intros Hwf fuel k Hfuel Hk;
    (destruct fuel as [|f]; [simpl in Hfuel; lia|]).
  - reflexivity.
  - destruct b; reflexivity.
  - cbn [pr]. destruct (pr_int_start n) as (c & r & E & Hc).
    pose proof (parse_number_pr_int n k Hk) as Hn.
    rewrite E in *. change (String c r +:+ k) with (String c (r +:+ k)) in *.
    rewrite parse_value_num by exact Hc. exact Hn.
  - cbn [pr]. unfold quote. rewrite parse_value_str, parse_chars_escape. reflexivity.
  - simpl in Hwf. pose proof (forallb_Forall_imp _ _ _ Hwf IHl) as Hl.
    cbn [pr]. unfold pr_seq. rewrite parse_value_arr.
    destruct Hl as [|x l Hx Hl].
    + reflexivity.
    + rewrite skip_ws_pr.
      destruct (pr_start x (pr_tail pr "]" l k)) as (c & r & E & Hc).
      destruct (starts_value_not_ws c Hc) as (_ & Hc1 & _).
      rewrite E. cbn [head_is]. rewrite Hc1. rewrite <- E.
      rewrite (parse_elems_pr k l Hl x f Hx); [reflexivity|].
      simpl in Hfuel. unfold tail_cost. lia.
  - simpl in Hwf. apply andb_prop in Hwf as [Hnd Hwf].
    pose proof (forallb_Forall_imp _ _ _ Hwf IHo) as Ho.
    cbn [pr]. unfold pr_seq. rewrite parse_value_obj.
    destruct Ho as [|kv o Hx Ho].
    + reflexivity.
    + change (parse_members f
                (quote (fst kv) (String ":" (pr (snd kv)
                   (pr_tail (fun kv k' => quote (fst kv) (String ":" (pr (snd kv) k'))) "}" o k)))))
        with (parse_members f (pr_member kv (pr_tail pr_member "}" o k))).
      rewrite (parse_members_pr k o Ho kv f Hx).
      * rewrite obj_of_members_nodup by exact Hnd. reflexivity.
      * simpl in Hfuel. unfold members_cost. lia.
Qed.

Lemma length_escape s k : (String.length k <= String.length (escape s k))%nat.
Proof.
  induction s as [|c s IH]; simpl; [lia|].
  rewrite length_append. lia.
Qed.

Lemma length_quote s k : (String.length k + 2 <= String.length (quote s k))%nat.
Proof.
  unfold quote. simpl. pose proof (length_escape s (String dquote k)) as H.
  simpl in H. lia.
Qed.

Lemma fits_tail k l :
  Forall fits l ->
  (tail_cost l + 2 * String.length k + 2
   <= 2 * String.length (pr_tail pr "]" l k))%nat.
Proof.
  induction 1 as [|x l Hx Hl IH]; simpl; [lia|].
  specialize (Hx (pr_tail pr "]" l k)). lia.
Qed.

Lemma fits_members k o :
  Forall (fun kv => fits (snd kv)) o ->
  (members_cost o + 2 * String.length k + 2
   <= 2 * String.length (pr_tail pr_member "}" o k))%nat.
Proof.
  induction 1 as [|[key v] o Hx Ho IH]; [simpl; lia|].
  change (pr_tail pr_member "}" ((key, v) :: o) k)
    with (String "," (quote key (String ":" (pr v (pr_tail pr_member "}" o k))))).
  change (members_cost ((key, v) :: o)) with (S (cost v + members_cost o)).
  simpl in Hx. specialize (Hx (pr_tail pr_member "}" o k)).
  pose proof (length_quote key (String ":" (pr v (pr_tail pr_member "}" o k)))) as Hq.
  revert Hx IH Hq. generalize (pr_tail pr_member "}" o k). intros t.
  generalize (quote key (String ":" (pr v t))). intros q.
  cbn [String.length]. lia.
Qed.

Lemma cost_fits v : fits v.
Proof.
  induction v as [|b|n|s|l IHl|o IHo] using json_ind; intros k.
  - cbn [pr cost]. rewrite length_append. simpl. lia.
  - destruct b; cbn [pr cost]; rewrite length_append; simpl; lia.
  - cbn [pr cost]. destruct (pr_int_start n) as (c & r & E & _).
    rewrite length_append, E. simpl. lia.
  - cbn [pr cost]. pose proof (length_quote s k). lia.
  - cbn [pr]. unfold pr_seq. destruct IHl as [|x l Hx Hl]; [simpl; lia|].
    pose proof (fits_tail k l Hl) as Ht.
    specialize (Hx (pr_tail pr "]" l k)). simpl. unfold tail_cost in Ht. lia.
  - cbn [pr]. unfold pr_seq. destruct IHo as [|[key v] o Hx Ho]; [simpl; lia|].
    pose proof (fits_members k o Ho) as Ht.
    simpl in Hx. specialize (Hx (pr_tail pr_member "}" o k)).
    cbn [fst snd].
    pose proof (length_quote key (String ":" (pr v (pr_tail pr_member "}" o k)))) as Hq.
    change (pr_tail (fun kv k' => quote (fst kv) (String ":" (pr (snd kv) k'))) "}" o k)
      with (pr_tail pr_member "}" o k).
    change (cost (JObj ((key, v) :: o))) with (S (S (cost v + members_cost o))).
    revert Hx Ht Hq. generalize (pr_tail pr_member "}" o k). intros t.
    generalize (quote key (String ":" (pr v t))). intros q.
    cbn [String.length]. lia.
Qed.

Theorem JSON_parse_stringify v :
  wf_json v = true -> JSON_parse (JSON_stringify v) = Some v.
Proof.
  intros Hwf. unfold JSON_parse, JSON_stringify.
  rewrite (parse_value_pr v Hwf); [reflexivity | | left; reflexivity].
  pose proof (cost_fits v EmptyString). lia.
Qed.










End JSONFacts.

(** ** Date.parse reads back what toISOString writes *)

Module DateFacts.
Import Chars DateTime StrFacts.













End DateFacts.

(** ** The path of the URL of a book *)

Module URLFacts.
Import Chars URL Spec StrFacts.

Lemma plain_char_spec c :
  plain_char c = true ->
  ends_path c = false /\ is_separator c = false /\ pct_encode c = Str.of_char c
  /\ is_tab_or_newline c = false /\ is_c0_or_space c = false.
Proof.
  destruct c as [[] [] [] [] [] [] [] []]; intros H;
    solve [discriminate H | repeat split].
Qed.

Lemma path_state_plain s : forall buf path,
  Str.forall_chars plain_char s = true ->
  path_state s buf path = end_segment (buf +:+ s) false path.
Proof.
  induction s as [|c s IH]; intros buf path H.
  - rewrite append_nil_r. reflexivity.
  - simpl in H. apply andb_prop in H as [Hc Hs].
    destruct (plain_char_spec c Hc) as (H1 & H2 & H3 & _).
    cbn [path_state]. rewrite H1, H2, H3, (IH _ _ Hs), append_assoc. reflexivity.
Qed.

Lemma path_state_plain_sep s rest : forall buf path,
  Str.forall_chars plain_char s = true ->
  path_state (s +:+ String "/" rest) buf path
  = path_state rest "" (end_segment (buf +:+ s) true path).
Proof.
  induction s as [|c s IH]; intros buf path H.
  - rewrite append_nil_r. reflexivity.
  - simpl in H. apply andb_prop in H as [Hc Hs].
    destruct (plain_char_spec c Hc) as (H1 & H2 & H3 & _).
    change (String c s +:+ String "/" rest) with (String c (s +:+ String "/" rest)).
    cbn [path_state]. rewrite H1, H2, H3, (IH _ _ Hs), append_assoc. reflexivity.
Qed.

Lemma remove_tab_newline_plain s :
  Str.forall_chars (fun c => negb (is_c0_or_space c)) s = true ->
  remove_tab_newline s = s.
Proof.
  induction s as [|c s IH]; [reflexivity|]. simpl. intros H.
  apply andb_prop in H as [Hc Hs]. rewrite (IH Hs).
  replace (is_tab_or_newline c) with false; [reflexivity|].
  destruct c as [[] [] [] [] [] [] [] []]; solve [discriminate Hc | reflexivity].
Qed.

Lemma trim_right_plain s :
  Str.forall_chars (fun c => negb (is_c0_or_space c)) s = true ->
  trim_right s = s.
Proof.
  induction s as [|c s IH]; [reflexivity|]. simpl. intros H.
  apply andb_prop in H as [Hc Hs]. rewrite (IH Hs).
  apply negb_true_iff in Hc. rewrite Hc. destruct s; reflexivity.
Qed.

Lemma forall_chars_app p a b :
  Str.forall_chars p (a +:+ b) = Str.forall_chars p a && Str.forall_chars p b.
Proof.
  induction a as [|c a IH]; [reflexivity|].
  change (p c && Str.forall_chars p (a +:+ b)
          = p c && Str.forall_chars p a && Str.forall_chars p b).
  rewrite IH. apply andb_assoc.
Qed.

Lemma forall_chars_impl (p q : ascii -> bool) s :
  (forall c, p c = true -> q c = true) ->
  Str.forall_chars p s = true -> Str.forall_chars q s = true.
Proof.
  intros Hpq. induction s as [|c s IH]; [reflexivity|]. simpl.
  intros H. apply andb_prop in H as [Hc Hs]. rewrite (Hpq _ Hc), (IH Hs). reflexivity.
Qed.

(** The URL [/api/books/<id>] of a plain segment [id] has itself as its
    path. *)
Lemma url_pathname_book id :
  plain_segment id = true ->
  url_pathname ("/api/books/" +:+ id) = "/api/books/" +:+ id.
Proof.
  unfold plain_segment. intros H.
  apply andb_prop in H as [H Hdd]. apply andb_prop in H as [H Hsd].
  apply andb_prop in H as [_ Hpl].
  apply negb_true_iff in Hdd, Hsd.
  assert (Hnc : Str.forall_chars (fun c => negb (is_c0_or_space c))
                  ("/api/books/" +:+ id) = true).
  { rewrite forall_chars_app. apply andb_true_intro. split; [reflexivity|].
    apply (forall_chars_impl plain_char); [|exact Hpl].
    intros c Hc. destruct (plain_char_spec c Hc) as (_ & _ & _ & _ & ->). reflexivity. }
  unfold url_pathname.
  change (trim_left ("/api/books/" +:+ id)) with ("/api/books/" +:+ id).
  rewrite (trim_right_plain _ Hnc), (remove_tab_newline_plain _ Hnc).
  change ("/api/books/" +:+ id)
    with (String "/" ("api" +:+ String "/" ("books" +:+ String "/" id))) at 1.
  cbv iota. change (is_separator "/") with true. cbv iota.
  rewrite !path_state_plain_sep by reflexivity.
  rewrite path_state_plain by exact Hpl.
  change ("" +:+ id) with id.
  unfold end_segment at 1. rewrite Hdd, Hsd.
  change (end_segment ("" +:+ "books") true (end_segment ("" +:+ "api") true []))
    with ["api"; "books"].
  change (serialize_path (["api"; "books"] ++ [id]))
    with ("/api/books/" +:+ (id +:+ "")).
  rewrite append_nil_r. reflexivity.
Qed.

End URLFacts.

(** ** The API *)

Module ServerFacts.
Import JSON Redis Server Spec.
Import StrFacts JSONFacts DateFacts.
Local Open Scope redis_scope.

Lemma answers_ret data st : answers_json (ret (sendJson data st)).
Proof. intros c r c' [= <- _]. eexists _, _. reflexivity. Qed.

Lemma answers_bind {A} (m : M A) (f : A -> M response) :
  (forall a, answers_json (f a)) -> answers_json (bind m f).
Proof.
  intros Hf c r c'. unfold bind. destruct (m c) as [[a|e] c1]; [apply Hf|discriminate].
Qed.

Ltac answers :=
  cbv zeta;
  repeat first
    [ apply answers_ret
    | apply answers_bind; intros
    | match goal with
      | |- answers_json (match ?x with _ => _ end) => destruct x
      end ].

Lemma api_routes_answers now req pathname : answers_json (api_routes now req pathname).
Proof.
  unfold api_routes, list_books, get_book, save_book, delete_book, get_record,
    post_record, get_status.
  answers.
Qed.

Lemma json_response_origin r : json_response r -> allows_any_origin r.
Proof. intros (data & st & ->). reflexivity. Qed.

Lemma handleApi_origin now req redis :
  allows_any_origin (fst (handleApi now req redis)).
Proof.
  unfold handleApi. destruct (String.eqb (method req) "OPTIONS"); [reflexivity|].
  destruct redis as [c|]; [|reflexivity].
  destruct (api_routes now req _ c) as [[r|e] c'] eqn:E; [|reflexivity].
  apply json_response_origin. exact (api_routes_answers _ _ _ _ _ _ E).
Qed.

(** C2, as amended: every response to a request under [/api/], whatever
    its method and its outcome, carries Access-Control-Allow-Origin: *. *)
Theorem api_allows_any_origin s now req redis :
  Str.startsWith "/api/" (url req) = true ->
  exists r redis', server s now req redis = (Some r, redis') /\ allows_any_origin r.
Proof.
  intros Hapi. unfold server. rewrite Hapi.
  pose proof (handleApi_origin now req redis) as H.
  destruct (handleApi now req redis) as [r redis']. eauto.
Qed.

Lemma api_allows_any_origin_witness :
  exists r redis',
    server demo_site 0 (GET "/api/books/none") (Some (Ready ∅)) = (Some r, redis')
    /\ allows_any_origin r.
Proof. apply (api_allows_any_origin demo_site 0 (GET "/api/books/none")). reflexivity. Defined.

Lemma static_without_origin_header :
  (exists r, fst (server demo_site 0 (GET "/") None) = Some r
             /\ status r = 200 /\ ~ allows_any_origin r)
  /\ (exists r, fst (server demo_site 0 (GET "/reader/42") None) = Some r
                /\ status r = 200 /\ ~ allows_any_origin r).
Proof.
  split; eexists; (split; [vm_compute; reflexivity|]); split;
    [reflexivity | discriminate | reflexivity | discriminate].
Qed.

Lemma storeless_body :
  JSON_parse (JSON_stringify (JObj [("error", JStr "Cloud storage not available")]))
  = Some (JObj [("error", JStr "Cloud storage not available")]).
Proof. vm_compute. reflexivity. Qed.

(** C1, as amended: without store client, every request under [/api/]
    whose method is not OPTIONS gets 503 and a JSON body with an [error]
    field. *)
Theorem api_without_store s now req :
  Str.startsWith "/api/" (url req) = true ->
  method req <> "OPTIONS" ->
  storeless_answer (server s now req None).
Proof.
  intros Hapi Hm. unfold server, handleApi. rewrite Hapi.
  destruct (String.eqb_spec (method req) "OPTIONS") as [E|_]; [contradiction|].
  eexists. split; [reflexivity|]. split; [reflexivity|].
  eexists _, _. split; [exact storeless_body | reflexivity].
Qed.

Lemma api_without_store_witness :
  Str.startsWith "/api/" (url (DELETE "/api/books/b1")) = true
  /\ method (DELETE "/api/books/b1") <> "OPTIONS"
  /\ storeless_answer (server demo_site 0 (DELETE "/api/books/b1") None).
Proof.
  split; [reflexivity|]. split; [discriminate|].
  apply (api_without_store demo_site 0 (DELETE "/api/books/b1"));
    [reflexivity | discriminate].
Defined.

Lemma options_without_store_is_not_503 :
  Str.startsWith "/api/" (url (OPTIONS "/api/books")) = true
  /\ ~ storeless_answer (server demo_site 0 (OPTIONS "/api/books") None).
Proof.
  split; [reflexivity|]. intros (r & Hr & Hs & _).
  vm_compute in Hr. injection Hr as <-. discriminate Hs.
Qed.

(** C7, as amended: an OPTIONS request to a path under [/api/] gets 204,
    no body and the three cross-origin headers, whatever the state of
    the store client. *)
Theorem api_preflight s now req redis :
  Str.startsWith "/api/" (url req) = true ->
  method req = "OPTIONS" ->
  preflight_answer (server s now req redis)
  /\ snd (server s now req redis) = redis.
Proof.
  intros Hapi Hm. unfold server, handleApi. rewrite Hapi, Hm.
  split; [|reflexivity].
  exists preflight. repeat split.
Qed.

Lemma api_preflight_witness :
  Str.startsWith "/api/" (url (OPTIONS "/api/progress")) = true
  /\ method (OPTIONS "/api/progress") = "OPTIONS"
  /\ preflight_answer (server demo_site 0 (OPTIONS "/api/progress") (Some Unreachable)).
Proof.
  split; [reflexivity|]. split; [reflexivity|].
  apply (api_preflight demo_site 0 (OPTIONS "/api/progress") (Some Unreachable));
    reflexivity.
Defined.

Lemma options_outside_api_is_not_204 :
  ~ preflight_answer (server demo_site 0 (OPTIONS "/") None)
  /\ ~ preflight_answer (server demo_site 0 (OPTIONS "/anything") (Some (Ready ∅))).
Proof.
  split; intros (r & Hr & Hs & _); vm_compute in Hr; injection Hr as <-;
    discriminate Hs.
Qed.

Lemma bind_get {A} key (f : option string -> M A) db :
  bind (Redis.get key) f (Ready db) = f (db !! key) (Ready db).
Proof. reflexivity. Qed.




Lemma bind_throw {A B} e (f : A -> M B) c : bind (throw e) f c = (Throw e, c).
Proof. reflexivity. Qed.

Lemma split_no_sep sep s :
  Str.contains_char sep s = false -> Str.split sep s = [s].
Proof.
  induction s as [|c s IH]; [reflexivity|]. simpl. intros H.
  apply orb_false_iff in H as [Hc Hs]. rewrite Hc, (IH Hs). reflexivity.
Qed.


















Lemma route_post_progress now req :
  method req = "POST" ->
  api_routes now req "/api/progress" = post_record "user:progress" "progress" req.
Proof. unfold api_routes. intros ->. reflexivity. Qed.

Lemma route_post_notes now req :
  method req = "POST" ->
  api_routes now req "/api/notes" = post_record "user:notes" "notes" req.
Proof. unfold api_routes. intros ->. reflexivity. Qed.

Lemma route_get_progress now req :
  method req = "GET" ->
  api_routes now req "/api/progress" = get_record "user:progress" "progress".
Proof. unfold api_routes. intros ->. reflexivity. Qed.

Lemma route_get_notes now req :
  method req = "GET" ->
  api_routes now req "/api/notes" = get_record "user:notes" "notes".
Proof. unfold api_routes. intros ->. reflexivity. Qed.





(** *** Keys *)

Lemma chars_app a b :
  list_ascii_of_string (a +:+ b)
  = (list_ascii_of_string a ++ list_ascii_of_string b)%list.
Proof.
  induction a as [|c a IH]; [reflexivity|].
  change (c :: list_ascii_of_string (a +:+ b)
          = c :: (list_ascii_of_string a ++ list_ascii_of_string b)%list).
  rewrite IH. reflexivity.
Qed.

Lemma chars_inj a b : list_ascii_of_string a = list_ascii_of_string b -> a = b.
Proof.
  intros H. rewrite <- (string_of_list_ascii_of_string a),
    <- (string_of_list_ascii_of_string b), H. reflexivity.
Qed.

Lemma rev_inj {A} (l1 l2 : list A) : List.rev l1 = List.rev l2 -> l1 = l2.
Proof.
  intros H. rewrite <- (List.rev_involutive l1), <- (List.rev_involutive l2), H.
  reflexivity.
Qed.

(** The keys of two books are apart: a key tells the book and the kind. *)
Lemma book_key_inj i j k1 k2 :
  book_kind k1 -> book_kind k2 -> book_key i k1 = book_key j k2 -> i = j /\ k1 = k2.
Proof.
  unfold book_key. intros H1 H2 E.
  apply (f_equal list_ascii_of_string) in E. rewrite !chars_app in E.
  apply (f_equal (@List.rev ascii)) in E. rewrite !List.rev_app_distr in E.
  destruct H1 as [-> | [-> | ->]], H2 as [-> | [-> | ->]]; simpl in E;
    try discriminate E; (split; [|reflexivity]);
    apply chars_inj, rev_inj; injection E as E;
    exact (List.app_inv_tail _ _ _ E).
Qed.


Section frame.
Context {A : Type} (keys : string -> Prop).

Lemma writes_ret (a : A) : writes_only keys (ret a).
Proof. intros db. eexists _, _. split; [reflexivity | reflexivity]. Qed.

Lemma writes_throw e : writes_only keys (@throw A e).
Proof. intros db. eexists _, _. split; [reflexivity | reflexivity]. Qed.

Lemma writes_bind {B} (m : M B) (f : B -> M A) :
  writes_only keys m -> (forall b, writes_only keys (f b)) ->
  writes_only keys (bind m f).
Proof.
  intros Hm Hf db. destruct (Hm db) as (res & db1 & E & H1).
  unfold bind. rewrite E. destruct res as [b|e].
  - destruct (Hf b db1) as (res' & db2 & E' & H2).
    exists res', db2. split; [exact E'|].
    intros k Hk. rewrite (H2 k Hk). apply H1, Hk.
  - eexists _, _. split; [reflexivity | exact H1].
Qed.

Lemma writes_bind_ret {B} (b : B) (f : B -> M A) :
  writes_only keys (f b) -> writes_only keys (bind (ret b) f).
Proof. intros H db. exact (H db). Qed.
End frame.

Lemma writes_set keys key value : keys key -> writes_only keys (Redis.set key value).
Proof.
  intros Hk db. eexists _, _. split; [reflexivity|].
  intros k Hn. apply lookup_insert_ne. intros ->. contradiction.
Qed.

Lemma writes_set_value keys key v : keys key -> writes_only keys (Redis.set_value key v).
Proof.
  intros Hk. unfold set_value.
  destruct (command_args v) as [|value [|]].
  - apply writes_bind; [|intros; apply writes_throw].
    intros db. eexists _, _. split; reflexivity.
  - apply writes_set, Hk.
  - apply writes_bind; [|intros; apply writes_throw].
    intros db. eexists _, _. split; reflexivity.
Qed.

Lemma truthy_opt_is_Some v : truthy_opt v = true -> is_Some v.
Proof. destruct v; [eauto | discriminate]. Qed.

Lemma save_book_writes now req : writes_only (written_keys req) (save_book now req).
Proof.
  unfold save_book, parseBody.
  destruct (body_value (body req)) as [b|] eqn:Hb;
    [|intros db; eexists _, _; split; reflexivity].
  apply writes_bind_ret.
  apply writes_bind.
  { destruct b; (apply writes_ret || apply writes_throw). }
  intros _. cbv zeta.
  destruct (prop b "id") as [idv|] eqn:Hid; [|apply writes_ret].
  destruct (negb (truthy idv) || negb (truthy_opt (prop b "name")));
    [apply writes_ret|].
  apply writes_bind.
  { apply writes_set. exists b, idv. auto. }
  intros _. apply writes_bind.
  { destruct (prop b "rawData") as [raw|] eqn:Hraw; [|apply writes_ret].
    destruct (truthy raw); [|apply writes_ret].
    apply writes_set_value. exists b, idv. rewrite Hraw. eauto 10. }
  intros _. apply writes_bind; [|intros; apply writes_ret].
  destruct (truthy_opt (prop b "content") || truthy_opt (prop b "chapters")) eqn:E;
    [|apply writes_ret].
  apply writes_set. exists b, idv. split; [exact Hb|]. split; [exact Hid|].
  right. right. split; [reflexivity|].
  apply orb_true_iff in E as [E|E]; [left|right]; apply truthy_opt_is_Some, E.
Qed.




Lemma writes_weaken {A} (keys keys' : string -> Prop) (m : M A) :
  (forall k, keys k -> keys' k) -> writes_only keys m -> writes_only keys' m.
Proof.
  intros Hk Hm db. destruct (Hm db) as (res & db' & E & H).
  exists res, db'. split; [exact E|]. intros k Hn. apply H. auto.
Qed.









End ServerFacts.

(** ** Static files *)

Module StaticFacts.
Import Server Spec Path.
Import StrFacts URLFacts ServerFacts.

Lemma readFile_run s p callback :
  Str.contains_char Chars.nul p = false -> readFile s p callback = callback (fs s p).
Proof. intros H. unfold readFile. rewrite H. reflexivity. Qed.

(** C8, as amended: for a request outside [/api/] whose file cannot be
    read because it does not exist (ENOENT), the answer is the entry
    document with status 200 and type text/html, or the generic 500 when
    the entry document cannot be read; a read that fails for another
    reason gets the generic 500 at once. *)
Theorem static_fallback s now req redis p :
  Str.startsWith "/api/" (url req) = false ->
  resolve (dirname s) (url req) = Some p ->
  Str.contains_char Chars.nul p = false ->
  Str.contains_char Chars.nul (entry_document s) = false ->
  (fs s p = Failed "ENOENT" ->
     (forall data, fs s (entry_document s) = Content data ->
        fst (server s now req redis)
        = Some {| status := 200;
                  headers := [("Content-Type", "text/html")];
                  content := data |})
     /\ (forall code, fs s (entry_document s) = Failed code ->
           fst (server s now req redis) = Some server_error))
  /\ (forall code, fs s p = Failed code -> code <> "ENOENT" ->
        fst (server s now req redis) = Some server_error).
Proof.
  intros Hapi Hp Hnul Hnul'. unfold server. rewrite Hapi. cbn [fst].
  unfold serve_static. rewrite Hp, (readFile_run _ _ _ Hnul).
  split.
  - intros ->. cbn [String.eqb Ascii.eqb Bool.eqb]. rewrite (readFile_run _ _ _ Hnul').
    split; intros ? ->; reflexivity.
  - intros code -> Hcode.
    destruct (String.eqb_spec code "ENOENT"); [contradiction | reflexivity].
Qed.

Lemma static_fallback_witness :
  resolve (dirname demo_site) (url (GET "/reader/42")) = Some "/srv/app/reader/42"
  /\ fs demo_site "/srv/app/reader/42" = Failed "ENOENT"
  /\ fst (server demo_site 0 (GET "/reader/42") None)
     = Some {| status := 200;
               headers := [("Content-Type", "text/html")];
               content := "<html>ReadNote Plus</html>" |}.
Proof.
  split; [reflexivity|]. split; [reflexivity|].
  apply (static_fallback demo_site 0 (GET "/reader/42") None "/srv/app/reader/42");
    reflexivity.
Defined.

Lemma directory_gets_500 :
  Str.startsWith "/api/" (url (GET "/css")) = false
  /\ resolve (dirname demo_site) (url (GET "/css")) = Some "/srv/app/css"
  /\ fs demo_site "/srv/app/css" = Failed "EISDIR"
  /\ fs demo_site (entry_document demo_site) = Content "<html>ReadNote Plus</html>"
  /\ fst (server demo_site 0 (GET "/css") None) = Some server_error
  /\ status server_error = 500.
Proof. repeat split. Qed.

Lemma entry_name_spec seg :
  entry_name seg = true ->
  seg <> EmptyString /\ String.eqb seg "" = false /\ String.eqb seg "." = false
  /\ String.eqb seg ".." = false /\ Str.contains_char "/" seg = false.
Proof.
  unfold entry_name. intros H.
  apply andb_prop in H as [H H4]. apply andb_prop in H as [H H3].
  apply andb_prop in H as [H1 H2]. apply negb_true_iff in H1, H2, H3, H4.
  repeat split; try assumption. intros ->. discriminate H1.
Qed.

Lemma split_segment seg rest :
  Str.contains_char "/" seg = false ->
  Str.split "/" (seg +:+ String "/" rest) = seg :: Str.split "/" rest.
Proof.
  induction seg as [|c seg IH]; intros H; [reflexivity|].
  simpl in H. apply orb_false_iff in H as [Hc Hs].
  change (String c seg +:+ String "/" rest) with (String c (seg +:+ String "/" rest)).
  cbn [Str.split]. rewrite Hc, (IH Hs). reflexivity.
Qed.

Lemma abs_path_slash segs rest :
  exists tail, abs_path segs +:+ String "/" rest = String "/" tail
               /\ Str.split "/" (abs_path segs +:+ String "/" rest)
                  = EmptyString :: Str.split "/" tail.
Proof.
  destruct segs as [|seg segs]; eexists; split; reflexivity.
Qed.

Lemma split_abs_path segs rest :
  Forall (fun seg => entry_name seg = true) segs ->
  Str.split "/" (abs_path segs +:+ String "/" rest)
  = (EmptyString :: segs ++ Str.split "/" rest)%list.
Proof.
  induction 1 as [|seg segs Hseg _ IH]; [reflexivity|].
  destruct (entry_name_spec seg Hseg) as (_ & _ & _ & _ & Hns).
  change (abs_path (seg :: segs) +:+ String "/" rest)
    with (String "/" ((seg +:+ abs_path segs) +:+ String "/" rest)).
  rewrite append_assoc.
  destruct (abs_path_slash segs rest) as (tail & E & Es).
  rewrite Es in IH. injection IH as IH.
  rewrite E. cbn [Str.split]. change (Ascii.eqb "/" "/") with true. cbv iota.
  rewrite (split_segment _ _ Hns), IH. reflexivity.
Qed.

Lemma normalize_segments_cons a seg segs acc :
  normalize_segments a (seg :: segs) acc =
  if String.eqb seg "" || String.eqb seg "." then normalize_segments a segs acc
  else if String.eqb seg ".." then
    match List.last acc "" with
    | EmptyString => normalize_segments a segs (if a then acc ++ [".."] else acc)
    | String c l' =>
        if String.eqb (String c l') ".." then normalize_segments a segs (acc ++ [".."])
        else normalize_segments a segs (removelast acc)
    end
  else normalize_segments a segs (acc ++ [seg]).
Proof. reflexivity. Qed.

Lemma normalize_entry_name a seg segs acc :
  entry_name seg = true ->
  normalize_segments a (seg :: segs) acc = normalize_segments a segs (acc ++ [seg]).
Proof.
  intros H. destruct (entry_name_spec seg H) as (_ & H1 & H2 & H3 & _).
  rewrite normalize_segments_cons, H1, H2, H3. reflexivity.
Qed.

Lemma normalize_entry_names segs : forall rest acc,
  Forall (fun seg => entry_name seg = true) segs ->
  normalize_segments false (segs ++ rest) acc
  = normalize_segments false rest (acc ++ segs).
Proof.
  induction segs as [|seg segs IH]; intros rest acc H.
  - rewrite app_nil_r. reflexivity.
  - inversion H as [|? ? Hseg Hsegs]; subst.
    change ((seg :: segs) ++ rest)%list with (seg :: (segs ++ rest))%list.
    rewrite (normalize_entry_name _ _ _ _ Hseg), (IH _ _ Hsegs), <- app_assoc.
    reflexivity.
Qed.

Lemma normalize_parent init l segs :
  entry_name l = true ->
  normalize_segments false (".." :: segs) (init ++ [l])
  = normalize_segments false segs init.
Proof.
  intros H. destruct (entry_name_spec l H) as (Hne & _ & _ & Hdd & _).
  rewrite normalize_segments_cons.
  change (String.eqb ".." "" || String.eqb ".." ".") with false.
  change (String.eqb ".." "..") with true. cbv iota.
  rewrite List.last_last, List.removelast_last.
  destruct l as [|c l']; [contradiction|]. rewrite Hdd. reflexivity.
Qed.

Lemma normalize_escape init l z :
  Forall (fun seg => entry_name seg = true) (init ++ [l]) ->
  entry_name z = true ->
  normalize_segments false
    (EmptyString :: (init ++ [l]) ++ [EmptyString; ".."; z])%list []
  = (init ++ [z])%list.
Proof.
  intros Hsegs Hz.
  assert (Hl : entry_name l = true).
  { apply Forall_app in Hsegs as [_ Hl]. inversion Hl; assumption. }
  rewrite normalize_segments_cons. change (String.eqb "" "" || String.eqb "" ".") with true.
  cbv iota. rewrite (normalize_entry_names _ _ _ Hsegs).
  rewrite normalize_segments_cons. change (String.eqb "" "" || String.eqb "" ".") with true.
  cbv iota. change ([] ++ init ++ [l])%list with (init ++ [l])%list.
  rewrite (normalize_parent _ _ _ Hl), (normalize_entry_name _ _ _ _ Hz).
  reflexivity.
Qed.

Lemma unescape_plain s :
  Str.contains_char "%" s = false ->
  unescape s = Some (map Raw (list_ascii_of_string s)).
Proof.
  induction s as [|c s IH]; [reflexivity|]. simpl. intros H.
  apply orb_false_iff in H as [Hc Hs]. rewrite Hc, (IH Hs). reflexivity.
Qed.

Lemma utf8_items_raw s : utf8_items (map Raw (list_ascii_of_string s)) = Some s.
Proof. induction s as [|c s IH]; [reflexivity|]. simpl. rewrite IH. reflexivity. Qed.

Lemma decodeURIComponent_plain s :
  Str.contains_char "%" s = false -> decodeURIComponent s = Some s.
Proof.
  intros H. unfold decodeURIComponent. rewrite (unescape_plain s H).
  apply utf8_items_raw.
Qed.

Lemma literal_name_spec z :
  literal_name z = true ->
  entry_name z = true /\ Str.contains_char "%" z = false
  /\ Str.contains_char "?" z = false.
Proof.
  unfold literal_name. intros H.
  apply andb_prop in H as [H H3]. apply andb_prop in H as [H1 H2].
  apply negb_true_iff in H2, H3. auto.
Qed.

Lemma abs_path_snoc segs x :
  abs_path (segs ++ [x]) = abs_path segs +:+ String "/" x.
Proof.
  induction segs as [|seg segs IH].
  - simpl. rewrite append_nil_r. reflexivity.
  - change (String "/" (seg +:+ abs_path (segs ++ [x]))
            = String "/" (seg +:+ abs_path segs) +:+ String "/" x).
    rewrite IH.
    change (String "/" (seg +:+ abs_path segs) +:+ String "/" x)
      with (String "/" ((seg +:+ abs_path segs) +:+ String "/" x)).
    rewrite append_assoc. reflexivity.
Qed.

Lemma join_abs_path segs x :
  String "/" (Str.join "/" (segs ++ [x])) = abs_path (segs ++ [x]).
Proof.
  induction segs as [|seg segs IH].
  - simpl. rewrite append_nil_r. reflexivity.
  - change ((seg :: segs) ++ [x])%list with (seg :: (segs ++ [x]))%list.
    destruct (segs ++ [x])%list as [|y ys] eqn:E.
    + destruct segs; discriminate E.
    + change (Str.join "/" (seg :: y :: ys))
        with (seg +:+ "/" +:+ Str.join "/" (y :: ys)).
      change (seg +:+ "/" +:+ Str.join "/" (y :: ys))
        with (seg +:+ String "/" (Str.join "/" (y :: ys))).
      rewrite IH. reflexivity.
Qed.

Lemma split_escape segs z :
  Forall (fun seg => entry_name seg = true) segs ->
  Str.contains_char "/" z = false ->
  Str.split "/" (abs_path segs +:+ String "/" ("/../" +:+ z))
  = (EmptyString :: segs ++ [EmptyString; ".."; z])%list.
Proof.
  intros Hsegs Hz. rewrite (split_abs_path _ _ Hsegs).
  change ("/../" +:+ z) with (String "/" (String "." (String "." (String "/" z)))).
  cbn [Str.split]. rewrite (split_no_sep _ _ Hz). reflexivity.
Qed.

Lemma last_escape (segs : list string) z :
  List.last (EmptyString :: segs ++ [EmptyString; ".."; z])%list "x" = z.
Proof.
  replace (EmptyString :: segs ++ [EmptyString; ".."; z])%list
    with ((EmptyString :: segs ++ [EmptyString; ".."]) ++ [z])%list.
  - apply List.last_last.
  - simpl. rewrite <- app_assoc. reflexivity.
Qed.

Lemma startsWith_app a b c :
  Str.startsWith (a +:+ b) (a +:+ c) = Str.startsWith b c.
Proof.
  induction a as [|x a IH]; [reflexivity|].
  change (Ascii.eqb x x && Str.startsWith (a +:+ b) (a +:+ c) = Str.startsWith b c).
  rewrite Ascii.eqb_refl. exact IH.
Qed.

Lemma startsWith_slash l z :
  Str.contains_char "/" z = false -> Str.startsWith (l +:+ "/") z = false.
Proof.
  revert z. induction l as [|c l IH]; intros z Hz.
  - destruct z as [|d z]; [reflexivity|]. simpl in Hz.
    apply orb_false_iff in Hz as [Hd _].
    change (Ascii.eqb "/" d && Str.startsWith "" z = false).
    rewrite Ascii.eqb_sym, Hd. reflexivity.
  - destruct z as [|d z]; [reflexivity|]. simpl in Hz.
    apply orb_false_iff in Hz as [_ Hz].
    change (Ascii.eqb c d && Str.startsWith (l +:+ "/") z = false).
    rewrite (IH _ Hz). apply andb_false_r.
Qed.

Lemma append_inv_head (a b c : string) : a +:+ b = a +:+ c -> b = c.
Proof.
  induction a as [|x a IH]; [auto|]. intros H.
  change (String x (a +:+ b) = String x (a +:+ c)) in H.
  injection H as H. auto.
Qed.

(** C10: the file path of a request target is the root joined with the
    decoded target, with nothing that keeps it under the root: whatever
    the root directory [/.../l], the target [/../z] resolves to its
    sibling [/.../z], outside the root. *)
Theorem resolve_escapes_root init l z :
  Forall (fun seg => entry_name seg = true) (init ++ [l]) ->
  literal_name z = true ->
  z <> l ->
  let root := abs_path (init ++ [l]) in
  resolve root ("/../" +:+ z) = Some (abs_path (init ++ [z]))
  /\ inside root (abs_path (init ++ [z])) = false.
Proof.
  intros Hsegs Hz Hne root.
  destruct (literal_name_spec z Hz) as (Hen & Hpct & Hq).
  destruct (entry_name_spec z Hen) as (Hzne & _ & _ & _ & Hzs).
  split.
  - unfold resolve.
    assert (Hq' : Str.contains_char "?" ("/../" +:+ z) = false) by exact Hq.
    assert (Hp' : Str.contains_char "%" ("/../" +:+ z) = false) by exact Hpct.
    rewrite (split_no_sep _ _ Hq'). cbn [hd].
    rewrite (decodeURIComponent_plain _ Hp').
    change (String.eqb ("/../" +:+ z) "/" || String.eqb ("/../" +:+ z) "") with false.
    cbv iota. f_equal. unfold Path.join.
    assert (Hroot : exists r, root = String "/" r).
    { unfold root. destruct init; eexists; reflexivity. }
    destruct Hroot as [r Hr]. rewrite Hr at 1.
    change ("/../" +:+ z) with (String "/" (String "." (String "." (String "/" z)))) at 1.
    cbv iota.
    change (root +:+ "/" +:+ "/../" +:+ z)
      with (root +:+ String "/" ("/../" +:+ z)).
    unfold normalize.
    assert (Hp : exists t, root +:+ String "/" ("/../" +:+ z) = String "/" t).
    { rewrite Hr. eexists. reflexivity. }
    destruct Hp as [t Ht]. rewrite Ht. cbv iota. rewrite <- Ht.
    change (Ascii.eqb "/" "/") with true. cbn [negb].
    unfold ends_with_slash, root.
    rewrite (split_escape _ _ Hsegs Hzs).
    rewrite last_escape.
    rewrite (normalize_escape _ _ _ Hsegs Hen).
    destruct z as [|c z']; [contradiction|].
    pose proof (join_abs_path init (String c z')) as Hj.
    destruct (Str.join "/" (init ++ [String c z'])) as [|d body] eqn:Hb.
    + exfalso. destruct init as [|i0 init]; [discriminate Hb|].
      simpl in Hb. destruct (init ++ [String c z'])%list eqn:E;
        [destruct init; discriminate E | destruct i0; discriminate Hb].
    + exact Hj.
  - unfold inside, root. rewrite !abs_path_snoc.
    apply orb_false_iff. split.
    + apply String.eqb_neq. intros H. apply append_inv_head in H.
      injection H as H. contradiction.
    + rewrite append_assoc, startsWith_app.
      change (String "/" l +:+ "/") with (String "/" (l +:+ "/")).
      change (Ascii.eqb "/" "/" && Str.startsWith (l +:+ "/") z = false).
      rewrite (startsWith_slash _ _ Hzs). reflexivity.
Qed.

Lemma resolve_escapes_root_witness :
  literal_name "etc" = true
  /\ resolve "/srv/app" "/../etc" = Some "/srv/etc"
  /\ inside "/srv/app" "/srv/etc" = false.
Proof.
  split; [reflexivity|].
  apply (resolve_escapes_root ["srv"] "app" "etc");
    [repeat constructor | reflexivity | discriminate].
Defined.

(** The same on a concrete root: a request for [/../../etc/passwd]
    reads a file that is not under [/srv/app]. *)
Example passwd_is_served :
  resolve (dirname demo_site) "/../../etc/passwd" = Some "/etc/passwd"
  /\ inside (dirname demo_site) "/etc/passwd" = false
  /\ fst (server demo_site 0 (GET "/../../etc/passwd") None)
     = Some {| status := 200;
               headers := [("Content-Type", "application/octet-stream")];
               content := "root:x:0:0" |}.
Proof. repeat split. Qed.

End StaticFacts.

(** ** The routes: bad requests, unset records, notes *)

Module RouteFacts.
Import JSON Redis Server Spec SpecMore.
Import StrFacts JSONFacts ServerFacts.
Local Open Scope redis_scope.

Lemma handleApi_run s now req c :
  Str.startsWith "/api/" (url req) = true ->
  method req <> "OPTIONS" ->
  server s now req (Some c) =
  match api_routes now req (URL.url_pathname (url req)) c with
  | (Ok resp, c') => (Some resp, Some c')
  | (Throw err, c') =>
      (Some (sendJson (JObj [("error", JStr (message err))]) 500), Some c')
  end.
Proof.
  intros Hapi Hm. unfold server, handleApi. rewrite Hapi.
  destruct (String.eqb_spec (method req) "OPTIONS"); [contradiction|].
  destruct (api_routes _ _ _ c) as [[r|e] c']; reflexivity.
Qed.

Lemma error_body msg :
  has_error_field (sendJson (JObj [("error", JStr msg)]) 500)
  /\ has_error_field (sendJson (JObj [("error", JStr msg)]) 400)
  /\ has_error_field (sendJson (JObj [("error", JStr msg)]) 404).
Proof.
  assert (H : JSON_parse (JSON_stringify (JObj [("error", JStr msg)]))
              = Some (JObj [("error", JStr msg)]))
    by (apply JSON_parse_stringify; reflexivity).
  repeat split; eexists _, _; (split; [exact H | reflexivity]).
Qed.

Lemma method_not_options m : m = "GET" \/ m = "POST" \/ m = "DELETE" -> m <> "OPTIONS".
Proof. intros [-> | [-> | ->]]; discriminate. Qed.






Lemma route_get_record now req pathname key field :
  method req = "GET" -> record_route pathname key field ->
  api_routes now req pathname = get_record key field.
Proof.
  intros Hm [(-> & -> & ->) | (-> & -> & ->)];
    [apply route_get_progress | apply route_get_notes]; exact Hm.
Qed.

Lemma route_post_record now req pathname key field :
  method req = "POST" -> record_route pathname key field ->
  api_routes now req pathname = post_record key field req.
Proof.
  intros Hm [(-> & -> & ->) | (-> & -> & ->)];
    [apply route_post_progress | apply route_post_notes]; exact Hm.
Qed.

(** X3.  GET /api/progress and GET /api/notes answer with an empty
    record when the store holds nothing, or the empty string, under the
    key; the store is left as it is. *)
Theorem get_record_unset s now req key field (db : gmap string string) :
  method req = "GET" ->
  Str.startsWith "/api/" (url req) = true ->
  record_route (URL.url_pathname (url req)) key field ->
  db !! key = None \/ db !! key = Some EmptyString ->
  exists r, server s now req (Some (Ready db)) = (Some r, Some (Ready db))
            /\ answers_with r 200 (JObj [(field, JObj [])]).
Proof.
  intros Hm Hapi Hp Hdb.
  rewrite handleApi_run by (rewrite ?Hm; auto; discriminate).
  rewrite (route_get_record _ _ _ _ _ Hm Hp). unfold get_record.
  rewrite bind_get.
  assert (Hans : answers_with (sendJson (JObj [(field, JObj [])]) 200) 200
                   (JObj [(field, JObj [])])).
  { split; [reflexivity|]. apply JSON_parse_stringify. reflexivity. }
  destruct Hdb as [-> | ->]; eexists; (split; [reflexivity | exact Hans]).
Qed.

Lemma get_record_unset_witness :
  exists r, server demo_site 0 (GET "/api/notes") (Some (Ready ∅))
            = (Some r, Some (Ready ∅))
            /\ answers_with r 200 (JObj [("notes", JObj [])]).
Proof.
  apply (get_record_unset demo_site 0 (GET "/api/notes") "user:notes" "notes" ∅);
    [reflexivity | reflexivity | right; repeat split | left; reflexivity].
Defined.


End RouteFacts.

(** ** Other methods, and a store out of reach *)

Module OfflineFacts.
Import JSON Redis Server Spec SpecMore.
Import StrFacts JSONFacts ServerFacts RouteFacts.
Local Open Scope redis_scope.

Lemma eqb_false_of_ne a b : a <> b -> String.eqb a b = false.
Proof. intros H. destruct (String.eqb_spec a b); [contradiction | reflexivity]. Qed.

(** X5.  No route takes a method other than GET, POST, DELETE and
    OPTIONS: with a store client, such a request under [/api/] (a PUT,
    which the pre-flight answer lists as allowed, among them) gets 404
    [Not found] whatever its path, and the client is not used. *)
Theorem other_method_not_found s now req c :
  Str.startsWith "/api/" (url req) = true ->
  method req <> "GET" -> method req <> "POST" ->
  method req <> "DELETE" -> method req <> "OPTIONS" ->
  server s now req (Some c)
  = (Some (sendJson (JObj [("error", JStr "Not found")]) 404), Some c).
Proof.
  intros Hapi Hg Hp Hd Ho. rewrite (handleApi_run _ _ _ _ Hapi Ho).
  unfold api_routes.
  rewrite (eqb_false_of_ne _ _ Hg), (eqb_false_of_ne _ _ Hp), (eqb_false_of_ne _ _ Hd).
  rewrite !andb_false_r. reflexivity.
Qed.

Lemma other_method_not_found_witness :
  let req := {| method := "PUT"; url := "/api/books/b1"; body := "{}" |} in
  server demo_site 0 req (Some (Ready ∅))
  = (Some (sendJson (JObj [("error", JStr "Not found")]) 404), Some (Ready ∅)).
Proof.
  apply (other_method_not_found demo_site 0
           {| method := "PUT"; url := "/api/books/b1"; body := "{}" |});
    [reflexivity | discriminate | discriminate | discriminate | discriminate].
Defined.

(** *** A client whose server does not answer *)

Lemma offline_ret {A} (P : A -> Prop) a : P a -> offline P (ret a).
Proof. intros H. eexists. split; [reflexivity|]. intros ? [= <-]. exact H. Qed.

Lemma offline_throw {A} (P : A -> Prop) e : offline P (@throw A e).
Proof. eexists. split; [reflexivity|]. discriminate. Qed.

Lemma offline_command {A B} (P : B -> Prop) (f : gmap string string -> A * gmap string string)
    (k : A -> M B) :
  offline P (bind (command f) k).
Proof. eexists. split; [reflexivity|]. discriminate. Qed.

Lemma offline_bind {A B} (P : B -> Prop) (m : M A) (k : A -> M B) :
  offline (fun _ => True) m -> (forall a, offline P (k a)) -> offline P (bind m k).
Proof.
  intros (res & E & _) Hk. destruct res as [a|e].
  - destruct (Hk a) as (res' & E' & H'). exists res'.
    unfold bind. rewrite E. split; [exact E' | exact H'].
  - exists (Throw e). unfold bind. rewrite E. split; [reflexivity | discriminate].
Qed.

Lemma refusal_error st msg :
  st = 400 \/ st = 404 \/ st = 500 ->
  refusal (sendJson (JObj [("error", JStr msg)]) st).
Proof.
  intros H. split; [exact H|].
  destruct (error_body msg) as (H5 & H4 & H44).
  destruct H as [-> | [-> | ->]]; assumption.
Qed.

Lemma api_routes_offline now req pathname :
  offline refusal (api_routes now req pathname).
Proof.
  unfold api_routes.
  repeat match goal with
         | |- offline _ (if ?b then _ else _) => destruct b
         end;
    try solve [apply offline_command
              | apply offline_ret, refusal_error; auto].
  - unfold save_book, parseBody.
    destruct (body_value (body req)) as [b|]; [|apply offline_throw].
    apply offline_bind; [apply offline_ret; exact I|]. intros b'.
    apply offline_bind.
    { destruct b'; (apply offline_ret || apply offline_throw); exact I. }
    intros _. cbv zeta.
    destruct (prop b' "id") as [idv|]; [|apply offline_ret, refusal_error; auto].
    destruct (_ || _); [apply offline_ret, refusal_error; auto|].
    apply offline_command.
  - unfold post_record, parseBody.
    destruct (body_value (body req)) as [b|]; [|apply offline_throw].
    apply offline_bind; [apply offline_ret; exact I|]. intros b'.
    apply offline_bind.
    { destruct b'; (apply offline_ret || apply offline_throw); exact I. }
    intros _. apply offline_command.
  - unfold post_record, parseBody.
    destruct (body_value (body req)) as [b|]; [|apply offline_throw].
    apply offline_bind; [apply offline_ret; exact I|]. intros b'.
    apply offline_bind.
    { destruct b'; (apply offline_ret || apply offline_throw); exact I. }
    intros _. apply offline_command.
Qed.

(** X6.  While the client cannot reach its server, no request under
    [/api/] other than OPTIONS succeeds: the answer is 400, 404 or 500
    with an [error] field, and the client is kept. *)
Theorem unreachable_store_refuses s now req :
  Str.startsWith "/api/" (url req) = true ->
  method req <> "OPTIONS" ->
  exists r, server s now req (Some Unreachable) = (Some r, Some Unreachable)
            /\ refusal r.
Proof.
  intros Hapi Hm. rewrite (handleApi_run _ _ _ _ Hapi Hm).
  destruct (api_routes_offline now req (URL.url_pathname (url req)))
    as (res & E & Hres).
  rewrite E. destruct res as [r|e].
  - exists r. split; [reflexivity | apply Hres; reflexivity].
  - eexists. split; [reflexivity|]. apply refusal_error. auto.
Qed.

Lemma unreachable_store_refuses_witness :
  exists r, server demo_site 0 (GET "/api/books") (Some Unreachable)
            = (Some r, Some Unreachable) /\ refusal r.
Proof.
  apply (unreachable_store_refuses demo_site 0 (GET "/api/books"));
    [reflexivity | discriminate].
Defined.

(** X7.  GET /api/status tells whether the server of the client answers:
    200 with [{redis: "connected"}] when it does, 500 when it does not. *)
Theorem status_reports_connection s now req :
  method req = "GET" ->
  Str.startsWith "/api/" (url req) = true ->
  URL.url_pathname (url req) = "/api/status" ->
  (forall db : gmap string string,
      exists r, server s now req (Some (Ready db)) = (Some r, Some (Ready db))
                /\ answers_with r 200 (JObj [("redis", JStr "connected")]))
  /\ (exists r, server s now req (Some Unreachable) = (Some r, Some Unreachable)
                /\ status r = 500 /\ has_error_field r).
Proof.
  intros Hm Hapi Hp.
  assert (Hroute : api_routes now req "/api/status" = get_status).
  { unfold api_routes. rewrite Hm. reflexivity. }
  split; [intros db|];
    rewrite handleApi_run, Hp, Hroute by (rewrite ?Hm; auto; discriminate).
  - eexists. split; [reflexivity|]. split; [reflexivity|]. vm_compute. reflexivity.
  - eexists. split; [reflexivity|]. split; [reflexivity|]. apply error_body.
Qed.

Lemma status_reports_connection_witness :
  exists r, server demo_site 0 (GET "/api/status") (Some Unreachable)
            = (Some r, Some Unreachable)
            /\ status r = 500 /\ has_error_field r.
Proof.
  apply (status_reports_connection demo_site 0 (GET "/api/status")); reflexivity.
Defined.
End OfflineFacts.

(** ** Books: bad records, deletion, payload *)

Module BookFacts.
Import JSON Redis Server Spec SpecMore.
Import StrFacts JSONFacts ServerFacts RouteFacts OfflineFacts.
Local Open Scope redis_scope.









End BookFacts.

(** ** The listing of the books *)

Module ListFacts.
Import JSON Redis Server Spec SpecMore.
Import StrFacts JSONFacts ServerFacts RouteFacts OfflineFacts BookFacts.
Local Open Scope redis_scope.

(** *** The pattern of the listing *)

Lemma glob_char c p s :
  Ascii.eqb c "*" = false -> Ascii.eqb c "?" = false ->
  glob (String c p) s = true <-> exists s', s = String c s' /\ glob p s' = true.
Proof.
  intros H1 H2. cbn [glob]. rewrite H1. destruct s as [|d s].
  - split; [discriminate | intros (s' & E & _); discriminate E].
  - rewrite H2. cbn [orb]. split.
    + intros [Hd Hg]%andb_prop. apply Ascii.eqb_eq in Hd as <-. eauto.
    + intros (s' & [= -> ->] & Hg). rewrite Ascii.eqb_refl. exact Hg.
Qed.

Lemma glob_star p s :
  glob (String "*" p) s = true <-> exists a b, s = a +:+ b /\ glob p b = true.
Proof.
  change (glob (String "*" p) s)
    with ((fix star (s : string) : bool :=
             glob p s || match s with
                         | EmptyString => false
                         | String _ s' => star s'
                         end) s).
  induction s as [|c s IH].
  - rewrite orb_false_r. split.
    + intros H. exists EmptyString, EmptyString. auto.
    + intros (a & b & E & H). destruct a; [|discriminate E].
      change (EmptyString = b) in E. subst b. exact H.
  - rewrite orb_true_iff, IH. split.
    + intros [H | (a & b & -> & H)].
      * exists EmptyString, (String c s). auto.
      * exists (String c a), b. auto.
    + intros (a & b & E & H). destruct a as [|d a].
      * change (String c s = b) in E. subst b. auto.
      * change (String c s = String d (a +:+ b)) in E.
        injection E as -> ->. right. eauto.
Qed.

Lemma glob_end s : glob EmptyString s = true <-> s = EmptyString.
Proof. cbn [glob]. apply String.eqb_eq. Qed.

(** The keys the listing reads are the meta keys of the books. *)
Lemma glob_book_meta k :
  glob "book:*:meta" k = true <-> exists id, k = book_key id "meta".
Proof.
  unfold book_key. split.
  - intros H.
    repeat (apply glob_char in H as (? & -> & H); [|reflexivity|reflexivity]).
    apply glob_star in H as (a & b & -> & H).
    repeat (apply glob_char in H as (? & -> & H); [|reflexivity|reflexivity]).
    apply glob_end in H as ->. exists a. reflexivity.
  - intros [id ->].
    change ("book:" +:+ id +:+ ":" +:+ "meta")
      with (String "b" (String "o" (String "o" (String "k" (String ":" (id +:+ ":meta")))))).
    repeat (apply glob_char; [reflexivity | reflexivity |]; eexists; split;
            [reflexivity|]).
    apply glob_star. exists id, ":meta". split; reflexivity.
Qed.

(** X11.  The listing never reads the payload or the content of a book:
    of the three keys of a book only the meta key matches its pattern,
    and neither [user:progress] nor [user:notes] does. *)
Theorem listing_reads_meta_only id kind :
  book_kind kind ->
  (glob "book:*:meta" (book_key id kind) = true <-> kind = "meta")
  /\ glob "book:*:meta" "user:progress" = false
  /\ glob "book:*:meta" "user:notes" = false.
Proof.
  intros Hkind. split; [|split; reflexivity]. split.
  - intros [id' H]%glob_book_meta.
    apply book_key_inj in H as [_ H]; [exact H | exact Hkind | left; reflexivity].
  - intros ->. apply glob_book_meta. eauto.
Qed.

Lemma listing_reads_meta_only_witness :
  (glob "book:*:meta" (book_key "b1" "data") = true <-> "data" = "meta")
  /\ glob "book:*:meta" "user:progress" = false
  /\ glob "book:*:meta" "user:notes" = false.
Proof. apply (listing_reads_meta_only "b1" "data"). right. left. reflexivity. Defined.

(** *** The loop *)






End ListFacts.

(** ** The listing after a POST, and with a bad record *)

Module ListingFacts.
Import JSON Redis Server Spec SpecMore.
Import StrFacts JSONFacts ServerFacts RouteFacts OfflineFacts BookFacts ListFacts.
Local Open Scope redis_scope.





End ListingFacts.

(** ** Static files: query strings, escapes, types, the root *)

Module FileFacts.
Import JSON Server Spec SpecMore Path.
Import StrFacts URLFacts ServerFacts StaticFacts.

Lemma contains_char_app c a b :
  Str.contains_char c (a +:+ b) = Str.contains_char c a || Str.contains_char c b.
Proof.
  induction a as [|x a IH]; [reflexivity|].
  change (Ascii.eqb x c || Str.contains_char c (a +:+ b)
          = Ascii.eqb x c || Str.contains_char c a || Str.contains_char c b).
  rewrite IH, orb_assoc. reflexivity.
Qed.

Lemma hd_split_app sep a b :
  Str.contains_char sep a = false ->
  hd EmptyString (Str.split sep (a +:+ b))
  = a +:+ hd EmptyString (Str.split sep b).
Proof.
  induction a as [|x a IH]; intros H; [reflexivity|].
  simpl in H. apply orb_false_iff in H as [Hx Ha].
  change (String x a +:+ b) with (String x (a +:+ b)).
  cbn [Str.split]. rewrite Hx. specialize (IH Ha).
  change (String x a +:+ hd EmptyString (Str.split sep b))
    with (String x (a +:+ hd EmptyString (Str.split sep b))).
  rewrite <- IH. destruct (Str.split sep (a +:+ b)) as [|y ys]; reflexivity.
Qed.

Lemma hd_split_query t q :
  Str.contains_char "?" t = false ->
  hd EmptyString (Str.split "?" (t +:+ String "?" q)) = t.
Proof.
  intros H. rewrite (hd_split_app _ _ _ H). cbn [Str.split].
  change (Ascii.eqb "?" "?") with true. cbn [hd]. apply append_nil_r.
Qed.

Lemma startsWith_api_query t q :
  Str.startsWith "/api/" (t +:+ String "?" q) = Str.startsWith "/api/" t.
Proof.
  destruct t as [|c1 [|c2 [|c3 [|c4 [|c5 t]]]]]; reflexivity.
Qed.

Lemma static_run s now req redis :
  Str.startsWith "/api/" (url req) = false ->
  server s now req redis = (serve_static s req, redis).
Proof. intros H. unfold server. rewrite H. reflexivity. Qed.

(** X15.  Outside [/api/] the listener looks at the request target only
    up to its first [?]: whatever the methods and bodies, a target with
    a query string gets the response of the target without it, and the
    store is not touched. *)
Theorem static_ignores_query s t1 t2 req req' redis q :
  Str.startsWith "/api/" (url req) = false ->
  Str.contains_char "?" (url req) = false ->
  url req' = url req +:+ String "?" q ->
  server s t2 req' redis = server s t1 req redis
  /\ snd (server s t2 req' redis) = redis.
Proof.
  intros Hapi Hq E.
  assert (Hapi' : Str.startsWith "/api/" (url req') = false)
    by (rewrite E, startsWith_api_query; exact Hapi).
  rewrite (static_run _ _ _ _ Hapi), (static_run _ _ _ _ Hapi').
  split; [|reflexivity]. f_equal.
  unfold serve_static, resolve. rewrite E, (hd_split_query _ _ Hq).
  rewrite (split_no_sep _ _ Hq). reflexivity.
Qed.

Lemma static_ignores_query_witness :
  server demo_site 7 (POST "/css/main.css?v=2" JNull) None
  = server demo_site 0 (GET "/css/main.css") None
  /\ snd (server demo_site 7 (POST "/css/main.css?v=2" JNull) None) = None.
Proof.
  apply (static_ignores_query demo_site 0 7 (GET "/css/main.css")
           (POST "/css/main.css?v=2" JNull) None "v=2"); reflexivity.
Defined.





Lemma split_not_nil sep s : Str.split sep s <> [].
Proof.
  destruct s as [|c s]; [discriminate|]. cbn [Str.split].
  destruct (Ascii.eqb c sep); [discriminate|].
  destruct (Str.split sep s); discriminate.
Qed.

Lemma last_app_ne {A} (l l' : list A) d :
  l' <> [] -> List.last (l ++ l') d = List.last l' d.
Proof.
  intros H. rewrite (app_removelast_last d H), app_assoc, !List.last_last.
  reflexivity.
Qed.

Lemma join_not_empty x xs :
  x <> EmptyString -> Str.join "/" (x :: xs) <> EmptyString.
Proof.
  intros Hx. destruct xs as [|y ys]; [exact Hx|].
  destruct x as [|c x]; [contradiction | discriminate].
Qed.

Lemma join_abs_path_all l :
  l <> [] -> String "/" (Str.join "/" l) = abs_path l.
Proof.
  intros H. rewrite (app_removelast_last EmptyString H). apply join_abs_path.
Qed.

Lemma split_abs_path_all l :
  l <> [] -> Forall (fun seg => entry_name seg = true) l ->
  Str.split "/" (abs_path l) = EmptyString :: l.
Proof.
  intros Hne Hl. rewrite (app_removelast_last EmptyString Hne) in Hl |- *.
  apply Forall_app in Hl as [Hinit Hlast]. inversion Hlast as [|? ? Hx _]; subst.
  destruct (entry_name_spec _ Hx) as (_ & _ & _ & _ & Hs).
  rewrite abs_path_snoc, (split_abs_path _ _ Hinit), (split_no_sep _ _ Hs).
  reflexivity.
Qed.

(** Normalising a path under an absolute directory: the directory's
    segments, then what the rest normalises to. *)
Lemma normalize_under segs rest names c y :
  Forall (fun seg => entry_name seg = true) segs ->
  (forall acc, normalize_segments false (Str.split "/" rest) acc
               = (acc ++ names)%list) ->
  List.last (Str.split "/" rest) "x" = String c y ->
  (segs ++ names)%list <> [] ->
  Forall (fun seg => entry_name seg = true) names ->
  normalize (abs_path segs +:+ String "/" rest) = abs_path (segs ++ names).
Proof.
  intros Hsegs Hnorm Hlast Hne Hnames.
  destruct (abs_path_slash segs rest) as (tail & E & _).
  unfold normalize. rewrite E. cbv iota. rewrite <- E.
  change (Ascii.eqb "/" "/") with true. cbn [negb].
  unfold ends_with_slash. rewrite (split_abs_path _ _ Hsegs).
  change (EmptyString :: segs ++ Str.split "/" rest)%list
    with ((EmptyString :: segs) ++ Str.split "/" rest)%list.
  rewrite (last_app_ne _ _ _ (split_not_nil _ _)), Hlast.
  change ((EmptyString :: segs) ++ Str.split "/" rest)%list
    with (EmptyString :: (segs ++ Str.split "/" rest))%list.
  rewrite normalize_segments_cons.
  change (String.eqb "" "" || String.eqb "" ".") with true. cbv iota.
  rewrite (normalize_entry_names _ _ _ Hsegs), Hnorm.
  change ([] ++ segs)%list with segs.
  pose proof (join_abs_path_all _ Hne) as Hj.
  destruct (Str.join "/" (segs ++ names)) as [|d body] eqn:Hb; [|exact Hj].
  exfalso. destruct (segs ++ names)%list as [|x xs] eqn:El; [contradiction|].
  assert (Hx : entry_name x = true).
  { assert (Hall : Forall (fun seg => entry_name seg = true) (segs ++ names))
      by (apply Forall_app; auto).
    rewrite El in Hall. inversion Hall; assumption. }
  destruct (entry_name_spec _ Hx) as (Hxne & _).
  exact (join_not_empty x xs Hxne Hb).
Qed.

Lemma join_root segs b :
  segs <> [] -> b <> EmptyString ->
  Path.join (abs_path segs) b = normalize (abs_path segs +:+ String "/" b).
Proof.
  intros Hs Hb. unfold Path.join.
  destruct segs as [|seg segs]; [contradiction|].
  destruct b as [|c b]; [contradiction|]. reflexivity.
Qed.

(** [path.join] of an absolute directory and a relative file name. *)
Lemma join_name segs name :
  segs <> [] -> Forall (fun seg => entry_name seg = true) segs ->
  entry_name name = true ->
  Path.join (abs_path segs) name = abs_path (segs ++ [name]).
Proof.
  intros Hne Hsegs Hname.
  destruct (entry_name_spec _ Hname) as (Hn & _ & _ & _ & Hs).
  rewrite (join_root _ _ Hne Hn).
  destruct name as [|c y]; [contradiction|].
  apply (normalize_under segs _ [String c y] c y); auto.
  - intros acc. rewrite (split_no_sep _ _ Hs).
    rewrite (normalize_entry_name _ _ _ _ Hname). reflexivity.
  - rewrite (split_no_sep _ _ Hs). reflexivity.
  - intros H. apply app_eq_nil in H as [_ H]. discriminate H.
Qed.

(** [path.join] of an absolute directory and an absolute path. *)
Lemma join_abs segs names :
  segs <> [] -> names <> [] ->
  Forall (fun seg => entry_name seg = true) segs ->
  Forall (fun seg => entry_name seg = true) names ->
  Path.join (abs_path segs) (abs_path names) = abs_path (segs ++ names).
Proof.
  intros Hne Hnn Hsegs Hnames.
  assert (Hb : abs_path names <> EmptyString)
    by (destruct names; [contradiction | discriminate]).
  rewrite (join_root _ _ Hne Hb).
  pose proof (app_removelast_last EmptyString Hnn) as El.
  assert (Hlast : entry_name (List.last names EmptyString) = true).
  { rewrite El in Hnames. apply Forall_app in Hnames as [_ H].
    inversion H; assumption. }
  destruct (entry_name_spec _ Hlast) as (Hln & _).
  destruct (List.last names EmptyString) as [|c y] eqn:Ey; [contradiction|].
  apply (normalize_under segs _ names c y); auto.
  - intros acc. rewrite (split_abs_path_all _ Hnn Hnames).
    rewrite normalize_segments_cons.
    change (String.eqb "" "" || String.eqb "" ".") with true. cbv iota.
    rewrite <- (app_nil_r names) at 1.
    rewrite (normalize_entry_names _ _ _ Hnames). reflexivity.
  - rewrite (split_abs_path_all _ Hnn Hnames).
    change (EmptyString :: names) with ([EmptyString] ++ names)%list.
    rewrite (last_app_ne _ _ _ Hnn), El, List.last_last.
    rewrite El in Ey. rewrite List.last_last in Ey. exact Ey.
  - intros H. apply app_eq_nil in H as [H _]. contradiction.
Qed.

Lemma from_last_dot_none e :
  Str.contains_char "." e = false -> from_last_dot e = None.
Proof.
  induction e as [|c e IH]; [reflexivity|]. simpl. intros H.
  apply orb_false_iff in H as [Hc He]. rewrite (IH He), Hc. reflexivity.
Qed.

Lemma from_last_dot_app b e :
  Str.contains_char "." e = false ->
  from_last_dot (b +:+ String "." e) = Some (String "." e).
Proof.
  intros He. induction b as [|c b IH].
  - change (from_last_dot (String "." e) = Some (String "." e)).
    cbn [from_last_dot]. rewrite (from_last_dot_none _ He). reflexivity.
  - change (from_last_dot (String c (b +:+ String "." e)) = Some (String "." e)).
    cbn [from_last_dot]. rewrite IH. reflexivity.
Qed.

Lemma filter_entry_names (l : list string) :
  Forall (fun seg => entry_name seg = true) l ->
  filter (fun seg => negb (String.eqb seg "")) l = l.
Proof.
  induction 1 as [|x l Hx _ IH]; [reflexivity|].
  destruct (entry_name_spec _ Hx) as (_ & H1 & _).
  rewrite filter_cons, IH, H1. reflexivity.
Qed.

Lemma basename_abs_path init name :
  Forall (fun seg => entry_name seg = true) (init ++ [name]) ->
  basename (abs_path (init ++ [name])) = name.
Proof.
  intros H. unfold basename.
  rewrite split_abs_path_all by (auto; intros E; apply app_eq_nil in E as [_ E]; discriminate E).
  rewrite filter_cons. change (negb (String.eqb "" "")) with false.
  rewrite decide_False by (intros []).
  rewrite (filter_entry_names _ H). apply List.last_last.
Qed.

(** The extension of a file whose name has a dot after its first
    character: from the last dot on. *)
Lemma extname_dotted init c b e :
  Forall (fun seg => entry_name seg = true) (init ++ [String c b +:+ String "." e]) ->
  Str.contains_char "." e = false ->
  extname (abs_path (init ++ [String c b +:+ String "." e])) = String "." e.
Proof.
  intros H He. unfold extname. rewrite (basename_abs_path _ _ H).
  apply Forall_app in H as [_ H]. inversion H as [|? ? Hx _]; subst.
  destruct (entry_name_spec _ Hx) as (_ & _ & _ & Hdd & _).
  change (String c b +:+ String "." e) with (String c (b +:+ String "." e)) in *.
  cbv iota. rewrite Hdd, (from_last_dot_app _ _ He). reflexivity.
Qed.







Lemma entry_document_path s segs :
  dirname s = abs_path segs -> segs <> [] ->
  Forall (fun seg => entry_name seg = true) segs ->
  entry_document s = abs_path (segs ++ ["ReadNote Plus.html"]).
Proof.
  intros Hroot Hne Hsegs. unfold entry_document. rewrite Hroot.
  apply join_name; auto.
Qed.

(** X18.  The root of the site is the entry document: a request for [/],
    with or without a query string, reads [ReadNote Plus.html] in the
    directory of the script and serves it as text/html; when that file
    cannot be read, whatever the reason, the answer is the generic 500. *)
Theorem root_serves_entry_document s now req redis segs :
  dirname s = abs_path segs ->
  segs <> [] ->
  Forall (fun seg => entry_name seg = true) segs ->
  Str.contains_char Chars.nul (dirname s) = false ->
  (url req = "/" \/ exists q, url req = String "/" (String "?" q)) ->
  resolve (dirname s) (url req) = Some (entry_document s)
  /\ (forall data, fs s (entry_document s) = Content data ->
        fst (server s now req redis) = Some (file_response "text/html" data))
  /\ (forall code, fs s (entry_document s) = Failed code ->
        fst (server s now req redis) = Some server_error).
Proof.
  intros Hroot Hne Hsegs Hnul Hurl.
  pose proof (entry_document_path s segs Hroot Hne Hsegs) as Hdoc.
  assert (Hres : resolve (dirname s) (url req) = Some (entry_document s)).
  { assert (Hhd : hd EmptyString (Str.split "?" (url req)) = "/")
      by (destruct Hurl as [-> | [q ->]]; reflexivity).
    unfold resolve. rewrite Hhd.
    change (Some (Path.join (dirname s) (abs_path ["ReadNote Plus.html"]))
            = Some (entry_document s)).
    rewrite Hdoc, Hroot.
    rewrite join_abs; [reflexivity | exact Hne | discriminate | exact Hsegs
                      | repeat constructor]. }
  assert (Hapi : Str.startsWith "/api/" (url req) = false)
    by (destruct Hurl as [-> | [q ->]]; reflexivity).
  assert (Hnul' : Str.contains_char Chars.nul (entry_document s) = false).
  { rewrite Hdoc, abs_path_snoc, <- Hroot, contains_char_app, Hnul. reflexivity. }
  assert (Hext : extname (entry_document s) = ".html").
  { rewrite Hdoc.
    apply (extname_dotted segs "R" "eadNote Plus" "html"); [|reflexivity].
    apply Forall_app. split; [exact Hsegs | repeat constructor]. }
  split; [exact Hres|].
  rewrite (static_run _ _ _ _ Hapi). cbn [fst]. unfold serve_static.
  rewrite Hres, Hext, (readFile_run _ _ _ Hnul').
  split.
  - intros data ->. reflexivity.
  - intros code E. rewrite E. destruct (String.eqb code "ENOENT"); [|reflexivity].
    rewrite (readFile_run _ _ _ Hnul'), E. reflexivity.
Qed.

Lemma root_serves_entry_document_witness :
  resolve "/srv/app" "/?tab=notes" = Some "/srv/app/ReadNote Plus.html"
  /\ fst (server demo_site 0 (GET "/?tab=notes") None)
     = Some (file_response "text/html" "<html>ReadNote Plus</html>").
Proof.
  destruct (root_serves_entry_document demo_site 0 (GET "/?tab=notes") None
              ["srv"; "app"]) as (H1 & H2 & _);
    [reflexivity | discriminate | repeat constructor | reflexivity
    | right; exists "tab=notes"; reflexivity |].
  split; [exact H1 | apply H2; reflexivity].
Defined.
End FileFacts.

(** ** Status codes *)

Module StatusFacts.
Import JSON Redis Server Spec SpecMore.
Import StrFacts JSONFacts ServerFacts.
Local Open Scope redis_scope.

Lemma returns_ret data st :
  st = 200 \/ st = 400 \/ st = 404 -> returns route_answer (ret (sendJson data st)).
Proof. intros H c r c' [= <- _]. exists data, st. auto. Qed.

Lemma returns_bind {A B} (P : B -> Prop) (m : M A) (f : A -> M B) :
  (forall a, returns P (f a)) -> returns P (bind m f).
Proof.
  intros Hf c r c'. unfold bind. destruct (m c) as [[a|e] c1]; [apply Hf|discriminate].
Qed.

Ltac route_answers :=
  cbv zeta;
  repeat first
    [ apply returns_ret; auto
    | apply returns_bind; intros
    | match goal with
      | |- returns _ (match ?x with _ => _ end) => destruct x
      end ].

Lemma api_routes_status now req pathname :
  returns route_answer (api_routes now req pathname).
Proof.
  unfold api_routes, list_books, get_book, save_book, delete_book, get_record,
    post_record, get_status.
  route_answers.
Qed.

(** X19.  Every request under [/api/] is answered, and with one of six
    status codes: 204 for OPTIONS; otherwise a response with Content-Type
    application/json whose status is 503 when there is no store client
    and 200, 400, 404 or 500 when there is one. *)
Theorem api_status_codes s now req redis :
  Str.startsWith "/api/" (url req) = true ->
  exists r redis',
    server s now req redis = (Some r, redis')
    /\ (method req = "OPTIONS" -> status r = 204)
    /\ (method req <> "OPTIONS" ->
          header "Content-Type" (headers r) = Some "application/json"
          /\ (redis = None -> status r = 503)
          /\ (redis <> None ->
                status r = 200 \/ status r = 400 \/ status r = 404 \/ status r = 500)).
Proof.
  intros Hapi. unfold server. rewrite Hapi. unfold handleApi.
  destruct (String.eqb_spec (method req) "OPTIONS") as [Hm|Hm].
  - eexists _, _. split; [reflexivity|]. split; [reflexivity | contradiction].
  - destruct redis as [c|].
    + destruct (api_routes now req (URL.url_pathname (url req)) c)
        as [[r|e] c'] eqn:E.
      * destruct (api_routes_status _ _ _ _ _ _ E) as (data & st & -> & Hst).
        eexists _, _. split; [reflexivity|]. split; [contradiction|].
        intros _. split; [reflexivity|]. split; [discriminate|].
        intros _. cbn [status sendJson]. tauto.
      * eexists _, _. split; [reflexivity|]. split; [contradiction|].
        intros _. split; [reflexivity|]. split; [discriminate|].
        intros _. cbn [status sendJson]. tauto.
    + eexists _, _. split; [reflexivity|]. split; [contradiction|].
      intros _. split; [reflexivity|]. split; [reflexivity | contradiction].
Qed.

Lemma api_status_codes_witness :
  exists r redis',
    server demo_site 0 (DELETE "/api/nowhere") (Some Unreachable) = (Some r, redis')
    /\ (method (DELETE "/api/nowhere") = "OPTIONS" -> status r = 204)
    /\ (method (DELETE "/api/nowhere") <> "OPTIONS" ->
          header "Content-Type" (headers r) = Some "application/json"
          /\ (Some Unreachable = None -> status r = 503)
          /\ (Some Unreachable <> None ->
                status r = 200 \/ status r = 400 \/ status r = 404 \/ status r = 500)).
Proof.
  apply (api_status_codes demo_site 0 (DELETE "/api/nowhere") (Some Unreachable)).
  reflexivity.
Defined.

(** X20.  Outside [/api/] a request never gets a 404, nor any status but
    200 and 500: a response, when there is one, is a file with status
    200 or the generic 500; and the store client is left as it is. *)
Theorem static_status_codes s now req redis :
  Str.startsWith "/api/" (url req) = false ->
  snd (server s now req redis) = redis
  /\ forall r, fst (server s now req redis) = Some r ->
       r = server_error
       \/ exists type data, r = file_response type data.
Proof.
  intros Hapi. unfold server. rewrite Hapi. split; [reflexivity|].
  cbn [fst]. unfold serve_static, readFile.
  destruct (resolve _ _) as [p|]; [|discriminate].
  destruct (Str.contains_char _ p); [discriminate|].
  destruct (fs s p) as [data|code].
  - intros r [= <-]. right. eexists _, _. reflexivity.
  - destruct (String.eqb code "ENOENT"); [|intros r [= <-]; auto].
    destruct (Str.contains_char _ _); [discriminate|].
    destruct (fs s _) as [data|code']; intros r [= <-]; [right|auto].
    eexists _, _. reflexivity.
Qed.

Lemma static_status_codes_witness :
  snd (server demo_site 0 (GET "/missing.png") None) = None
  /\ forall r, fst (server demo_site 0 (GET "/missing.png") None) = Some r ->
       r = server_error
       \/ exists type data, r = file_response type data.
Proof.
  apply (static_status_codes demo_site 0 (GET "/missing.png") None). reflexivity.
Defined.
End StatusFacts.

(** ** What a request writes *)

Module FrameFacts.
Import JSON Redis Server Spec SpecMore.
Import StrFacts JSONFacts ServerFacts RouteFacts BookFacts.
Local Open Scope redis_scope.

Lemma writes_read {A} keys (f : gmap string string -> A) :
  writes_only keys (command (fun db => (f db, db))).
Proof. intros db. eexists _, _. split; reflexivity. Qed.

Lemma writes_del keys key : keys key -> writes_only keys (Redis.del key).
Proof.
  intros Hk db. eexists _, _. split; [reflexivity|].
  intros k Hn. apply lookup_delete_ne. intros ->. contradiction.
Qed.

Lemma writes_parse_stored keys text : writes_only keys (parse_stored text).
Proof.
  unfold parse_stored. destruct (JSON_parse text); [apply writes_ret | apply writes_throw].
Qed.

Lemma writes_parseBody keys req : writes_only keys (parseBody req).
Proof.
  unfold parseBody. destruct (body_value _); [apply writes_ret | apply writes_throw].
Qed.

Lemma writes_require keys v : writes_only keys (require_object_coercible v).
Proof. destruct v; (apply writes_ret || apply writes_throw). Qed.

Lemma writes_collect keys ks : forall books, writes_only keys (collect_books ks books).
Proof.
  induction ks as [|key ks IH]; intros books; [apply writes_ret|].
  cbn [collect_books]. apply writes_bind; [apply writes_read|].
  intros [text|]; [|apply IH].
  destruct (truthy_reply (Some text)); [|apply IH].
  apply writes_bind; [apply writes_parse_stored | intros; apply IH].
Qed.

Lemma writes_list_books keys : writes_only keys list_books.
Proof.
  unfold list_books. apply writes_bind; [apply writes_read|]. intros ks.
  apply writes_bind; [apply writes_collect | intros; apply writes_ret].
Qed.

Lemma writes_get_book keys pathname : writes_only keys (get_book pathname).
Proof.
  unfold get_book. cbv zeta. apply writes_bind; [apply writes_read|]. intros meta.
  apply writes_bind; [apply writes_read|]. intros data.
  destruct meta as [text|]; [|apply writes_ret].
  destruct (truthy_reply (Some text)); [|apply writes_ret].
  apply writes_bind; [apply writes_parse_stored | intros; apply writes_ret].
Qed.

Lemma writes_get_record keys key field : writes_only keys (get_record key field).
Proof.
  unfold get_record. apply writes_bind; [apply writes_read|]. intros stored.
  destruct stored as [text|]; [|apply writes_ret].
  destruct (truthy_reply (Some text)); [|apply writes_ret].
  apply writes_bind; [apply writes_parse_stored | intros; apply writes_ret].
Qed.

Lemma writes_get_status keys : writes_only keys get_status.
Proof.
  unfold get_status. apply writes_bind; [apply writes_read | intros; apply writes_ret].
Qed.

Lemma writes_post_record (keys : string -> Prop) key field req :
  keys key -> writes_only keys (post_record key field req).
Proof.
  intros Hk. unfold post_record.
  apply writes_bind; [apply writes_parseBody|]. intros b.
  apply writes_bind; [apply writes_require|]. intros _.
  apply writes_bind; [apply writes_set, Hk | intros; apply writes_ret].
Qed.

Lemma writes_delete_book (keys : string -> Prop) pathname :
  (forall kind, book_kind kind -> keys (book_key (last_segment pathname) kind)) ->
  writes_only keys (delete_book pathname).
Proof.
  intros Hk. unfold delete_book. cbv zeta. unfold book_kind in Hk.
  repeat (apply writes_bind; [apply writes_del, Hk; auto | intros _]).
  apply writes_ret.
Qed.

(** The routes write at the keys of the request, and nowhere else. *)
Lemma api_routes_writes now req :
  writes_only (route_keys req) (api_routes now req (URL.url_pathname (url req))).
Proof.
  unfold api_routes. cbv zeta.
  set (pathname := URL.url_pathname (url req)).
  destruct (_ && _); [apply writes_list_books|].
  destruct (_ && _); [apply writes_get_book|].
  destruct (String.eqb pathname "/api/books" && String.eqb (method req) "POST") eqn:E.
  { apply andb_prop in E as [E1%String.eqb_eq E2%String.eqb_eq].
    apply (writes_weaken (written_keys req)); [|apply save_book_writes].
    intros k Hk. left. auto. }
  clear E.
  destruct (is_book_path pathname && String.eqb (method req) "DELETE") eqn:E.
  { apply andb_prop in E as [E1 E2%String.eqb_eq].
    apply writes_delete_book. intros kind Hkind. right. left. eauto. }
  clear E.
  destruct (_ && _); [apply writes_get_record|].
  destruct (String.eqb pathname "/api/progress" && String.eqb (method req) "POST") eqn:E.
  { apply andb_prop in E as [E1%String.eqb_eq E2%String.eqb_eq].
    apply writes_post_record. right. right. left. auto. }
  clear E.
  destruct (_ && _); [apply writes_get_record|].
  destruct (String.eqb pathname "/api/notes" && String.eqb (method req) "POST") eqn:E.
  { apply andb_prop in E as [E1%String.eqb_eq E2%String.eqb_eq].
    apply writes_post_record. right. right. right. auto. }
  clear E.
  destruct (_ && _); [apply writes_get_status | apply writes_ret].
Qed.



Lemma not_route_keys req k :
  method req <> "POST" -> method req <> "DELETE" -> ~ route_keys req k.
Proof.
  intros Hp Hd [(H & _) | [(H & _) | [(H & _) | (H & _)]]]; contradiction.
Qed.

(** X22.  Only POST and DELETE write: a request under [/api/] with any
    other method is answered and leaves the store exactly as it was,
    whatever its path and its outcome. *)
Theorem reads_do_not_write s now req (db : gmap string string) :
  Str.startsWith "/api/" (url req) = true ->
  method req <> "POST" -> method req <> "DELETE" ->
  exists r, server s now req (Some (Ready db)) = (Some r, Some (Ready db)).
Proof.
  intros Hapi Hp Hd. unfold server, handleApi. rewrite Hapi.
  destruct (String.eqb (method req) "OPTIONS"); [eexists; reflexivity|].
  destruct (api_routes_writes now req db) as (res & db' & E & H).
  assert (Hdb : db' = db).
  { apply map_eq. intros k. apply H, not_route_keys; assumption. }
  rewrite E, Hdb. destruct res; eexists; reflexivity.
Qed.

Lemma reads_do_not_write_witness :
  exists r, server demo_site 0 (GET "/api/books") (Some (Ready {[ "book:a:meta" := "{" ]}))
            = (Some r, Some (Ready {[ "book:a:meta" := "{" ]})).
Proof.
  apply (reads_do_not_write demo_site 0 (GET "/api/books")); [reflexivity| |];
    discriminate.
Defined.



End FrameFacts.
